(** * The render-and-save flow of [open-template-in-editor-save-file-sample.py]
    A shallow embedding of the back-end half of the sample: the four
    HTTP helpers ([get_access_token], [create_project],
    [check_project_results], [download_file]) and the [do_POST] handler
    that submits a rendering project, polls its status and stores the
    produced files.
    Everything outside the script is an explicit environment [env]: what
    the Customer's Canvas endpoints answer, which local writes fail, how
    Python prints a value that is not a string.  The script's effects are
    recorded in a [world]: the local disk and a log of the calls it makes
    (sleeps, requests, reads, writes, releases, response lines). *)
From Stdlib Require Import String List ZArith NArith Lia Bool Arith.
From Stdlib Require Import Strings.Byte.
From stdpp Require Import base gmap strings list fin_maps.

Local Open Scope string_scope.
Local Open Scope list_scope.

(** ** Python values and exceptions *)

(** What [json.loads] can return.  A dict is an association list read
    left to right (the first binding of a key is the one that counts). *)
#[warnings="-register-all"]
Inductive pyval : Type :=
| PyNone
| PyBool (b : bool)
| PyInt (n : Z)
| PyStr (s : string)
| PyList (items : list pyval)
| PyDict (entries : list (string * pyval)).

(** The exceptions the script can meet.  [ValueError] stands for both
    [UnicodeDecodeError] and [json.JSONDecodeError] (its subclasses),
    [HTTPError] for whatever urllib3 raises when a request or a read of the
    body fails, [OSError] for a failed [open] or [write]. *)
Inductive exn : Type :=
| KeyError (key : string)
| TypeError
| AttributeError (attr : string)
| ValueError
| HTTPError
| OSError.

Fixpoint dict_get (d : list (string * pyval)) (k : string) : option pyval :=
  match d with
  | [] => None
  | (k', v) :: d' => if String.eqb k' k then Some v else dict_get d' k
  end.

(** [v[k]] for a string key [k]: only a dict can be indexed by a string. *)
Definition subscript (v : pyval) (k : string) : exn + pyval :=
  match v with
  | PyDict d =>
      match dict_get d k with
      | Some x => inr x
      | None => inl (KeyError k)
      end
  | _ => inl TypeError
  end.

(** [v.statusDescription]-style attribute access.  The values at hand are
    built-in dicts, lists, strings, numbers, booleans and [None]; none of
    them has a data attribute, so a name that is not one of their methods
    raises [AttributeError].  Only such names are looked up by the script. *)
Definition getattr (v : pyval) (attr : string) : exn + pyval :=
  inl (AttributeError attr).

(** [v == s] for a string literal [s]. *)
Definition py_eq_str (v : pyval) (s : string) : bool :=
  match v with
  | PyStr t => String.eqb t s
  | _ => false
  end.

(** The elements a [for] loop visits: the items of a list, the keys of a
    dict, the characters of a string; anything else is not iterable. *)
Definition py_iter (v : pyval) : exn + list pyval :=
  match v with
  | PyList l => inr l
  | PyDict d => inr (map (fun kv => PyStr (fst kv)) d)
  | PyStr s => inr (map (fun c => PyStr (String c EmptyString)) (list_ascii_of_string s))
  | _ => inl TypeError
  end.

(** [str.encode(v)]: defined on strings only.  Strings are kept as their
    UTF-8 bytes, so encoding changes nothing. *)
Definition str_encode (v : pyval) : exn + string :=
  match v with
  | PyStr s => inr s
  | _ => inl TypeError
  end.

(** ** The environment *)

(** Answer of an endpoint whose body the script loads as JSON. *)
Inductive reply : Type :=
| NoResponse                      (* the request itself raises *)
| Body (parsed : option pyval).   (* [None]: the body is not UTF-8 JSON *)

(** What one [r.read(chunk_size)] of a streamed body gives. *)
Inductive read_result : Type :=
| Chunk (data : list byte)
| ReadError.

Record env : Type := {
  (* the token endpoint, by the number of token requests made before *)
  token_reply : nat -> reply;
  (* the render-hires endpoint *)
  submit_reply : reply;
  (* the processing-results endpoint, by the number of queries made before *)
  status_reply : nat -> reply;
  (* a file url: [None] when the GET raises, else the successive reads of
     the body; once they are used up [read] returns the empty bytes *)
  download_reply : pyval -> option (list read_result);
  (* local storage *)
  open_fails : string -> bool;
  (* [out.write], by the number of writes attempted before *)
  write_fails : nat -> bool;
  (* Python's [str()] of a value that is neither a string, [None] nor a
     boolean *)
  str_other : pyval -> string
}.

(** ** The world: local disk and call log *)

Inductive endpoint : Type :=
| Submit (payload : pyval)
| Status (project_id : pyval)
| Download (url : pyval).

Inductive event : Type :=
| ESleep (secs : nat)
| EToken
| ERequest (ep : endpoint) (authorization : string)
| ERelease (ep : endpoint)
| EOpen (filename : string)
| ERead (amt : N)
| EWrite (filename : string) (data : list byte)
| EWriteError (filename : string)
| EClose (filename : string)
| ESendResponse (code : nat)
| ESendHeader (keyword value : string)
| EEndHeaders
| EWfile (body : string).

Record world : Type := {
  disk : gmap string (list byte);
  log : list event                 (* newest event first *)
}.

(** The events in the order they happened. *)
Definition trace (w : world) : list event := rev (log w).

Definition emit (e : event) (w : world) : world :=
  {| disk := disk w; log := e :: log w |}.

Definition set_disk (d : gmap string (list byte)) (w : world) : world :=
  {| disk := d; log := log w |}.

Definition is_token (e : event) : bool :=
  match e with EToken => true | _ => false end.

Definition is_query (e : event) : bool :=
  match e with ERequest (Status _) _ => true | _ => false end.

Definition is_sleep (e : event) : bool :=
  match e with ESleep _ => true | _ => false end.

Definition is_write_attempt (e : event) : bool :=
  match e with EWrite _ _ | EWriteError _ => true | _ => false end.

Definition is_open (e : event) : bool :=
  match e with EOpen _ => true | _ => false end.

(** The events of fetching a file: opening the local file, the reads of
    the body and the writes of the loop, closing the file. *)
Definition is_file_event (e : event) : bool :=
  match e with
  | EOpen _ | ERead _ | EWrite _ _ | EWriteError _ | EClose _ => true
  | _ => false
  end.

Definition is_response_line (e : event) : bool :=
  match e with
  | ESendResponse _ | ESendHeader _ _ | EEndHeaders | EWfile _ => true
  | _ => false
  end.

Definition is_poll_event (e : event) : bool := is_sleep e || is_query e.

(** An event that is neither a sleep, a status query nor a response line. *)
Definition plain (e : event) : bool :=
  negb (is_poll_event e) && negb (is_response_line e).

Definition count (p : event -> bool) (l : list event) : nat :=
  length (List.filter p l).

(** Status queries issued so far. *)
Definition queries (w : world) : nat := count is_query (log w).

(** ** A state-and-exception monad *)

Inductive outcome (A : Type) : Type :=
| Ok (a : A) (w : world)
| Raise (e : exn) (w : world).
Arguments Ok {A} a w.
Arguments Raise {A} e w.

Definition M (A : Type) : Type := world -> outcome A.

Definition ret {A} (a : A) : M A := fun w => Ok a w.

Definition raise {A} (e : exn) : M A := fun w => Raise e w.

Definition bind {A B} (m : M A) (k : A -> M B) : M B :=
  fun w =>
    match m w with
    | Ok a w' => k a w'
    | Raise e w' => Raise e w'
    end.

Notation "'let*' x ':=' m 'in' k" := (bind m (fun x => k))
  (at level 10, x name, m at level 100, k at level 200).
Notation "'run' m 'in' k" := (bind m (fun _ => k))
  (at level 10, m at level 100, k at level 200).

Definition lift {A} (r : exn + A) : M A :=
  match r with
  | inr a => ret a
  | inl e => raise e
  end.

Definition say (e : event) : M unit := fun w => Ok tt (emit e w).

(** [try: m finally: cleanup], for a cleanup that cannot fail. *)
Definition finally {A} (m : M A) (cleanup : M unit) : M A :=
  fun w =>
    match m w with
    | Ok a w' =>
        match cleanup w' with
        | Ok _ w'' => Ok a w''
        | Raise e w'' => Raise e w''
        end
    | Raise e w' =>
        match cleanup w' with
        | Ok _ w'' => Raise e w''
        | Raise e' w'' => Raise e' w''
        end
    end.

Fixpoint for_each {A} (xs : list A) (body : A -> M unit) : M unit :=
  match xs with
  | [] => ret tt
  | x :: xs' => run body x in for_each xs' body
  end.

Definition world_of {A} (o : outcome A) : world :=
  match o with
  | Ok _ w => w
  | Raise _ w => w
  end.

Definition returned {A} (o : outcome A) : bool :=
  match o with
  | Ok _ _ => true
  | Raise _ _ => false
  end.

(** ** The script *)

Section Script.

Variable E : env.

(** Python's [str()], as used by the f-strings. *)
Definition py_str (v : pyval) : string :=
  match v with
  | PyStr s => s
  | PyNone => "None"
  | PyBool true => "True"
  | PyBool false => "False"
  | _ => str_other E v
  end.

(** [json.loads(r.data.decode('utf8'))] *)
Definition json_loads_data (data : option pyval) : M pyval :=
  match data with
  | Some v => ret v
  | None => raise ValueError
  end.

(** [client.request(...)] for an endpoint whose answer is [r]: the call is
    logged, a transport failure raises, else the body is at hand. *)
Definition client_request (e : event) (r : reply) : M (option pyval) :=
  fun w =>
    match r with
    | NoResponse => Raise HTTPError (emit e w)
    | Body data => Ok data (emit e w)
    end.

Definition get_access_token : M pyval :=
  fun w =>
    (let* data := client_request EToken (token_reply E (count is_token (log w))) in
     let* v := json_loads_data data in
     lift (subscript v "access_token")) w.

Definition bearer : M string :=
  let* token := get_access_token in
  ret ("Bearer " +:+ py_str token).

Definition create_project (state_id user_id format color_space resolution : pyval)
  : M pyval :=
  let payload :=
    PyDict
      [ ("ownerId", user_id);
        ("name", PyStr ("PROJ-" +:+ py_str state_id));
        ("description", PyStr ("Project for state " +:+ py_str state_id));
        ("scenario",
          PyDict
            [ ("designId", state_id);
              ("name", PyStr ("resultfile_" +:+ py_str state_id));
              ("dpi", resolution);
              ("format", format);
              ("colorSpace", color_space);
              ("flipMode", PyStr "None");
              ("allowAnonymous", PyBool false) ]) ] in
  let* authorization := bearer in
  let* data := client_request (ERequest (Submit payload) authorization) (submit_reply E) in
  let* result := json_loads_data data in
  run say (ERelease (Submit payload)) in
  ret result.

Definition check_project_results (project_id : pyval) : M pyval :=
  let* authorization := bearer in
  (fun w =>
     (let* data := client_request (ERequest (Status project_id) authorization)
                             (status_reply E (queries w)) in
      let* result := json_loads_data data in
      run say (ERelease (Status project_id)) in
      ret result) w).

Definition chunk_size : N := 1024 * 1024.

(** [open(filename, 'wb')]: the file is created or emptied. *)
Definition open_wb (filename : string) : M unit :=
  fun w =>
    if open_fails E filename then Raise OSError w
    else Ok tt (emit (EOpen filename) (set_disk (<[filename := []]> (disk w)) w)).

(** [out.write(data)]: the bytes are added at the end of the file. *)
Definition out_write (filename : string) (data : list byte) : M unit :=
  fun w =>
    if write_fails E (count is_write_attempt (log w))
    then Raise OSError (emit (EWriteError filename) w)
    else
      let old := default [] (disk w !! filename) in
      Ok tt (emit (EWrite filename data)
               (set_disk (<[filename := old ++ data]> (disk w)) w)).

(** The [while True] loop of [download_file], over what the successive
    reads of the body give. *)
Fixpoint read_loop (filename : string) (reads : list read_result) : M unit :=
  run say (ERead chunk_size) in
  match reads with
  | [] => ret tt
  | ReadError :: _ => raise HTTPError
  | Chunk [] :: _ => ret tt
  | Chunk data :: reads' =>
      run out_write filename data in
      read_loop filename reads'
  end.

Definition download_file (url : pyval) (filename : string) : M unit :=
  let* authorization := bearer in
  run say (ERequest (Download url) authorization) in
  match download_reply E url with
  | None => raise HTTPError
  | Some reads =>
      run open_wb filename in
      run finally (read_loop filename reads) (say (EClose filename)) in
      say (ERelease (Download url))
  end.

(** *** [do_POST] *)

(** The local variables of the polling loop. *)
Record locals : Type := {
  isPending : bool;
  isSuccess : bool;
  failureDetails : pyval;
  counter : nat
}.

Definition initial_locals : locals :=
  {| isPending := true; isSuccess := false;
     failureDetails := PyStr ""; counter := 0 |}.

Definition max_attempts : nat := 20.

Definition interval : nat := 3.

(** The [for result_info in file_details] loop of the [Completed] branch. *)
Definition download_all (items : list pyval) : M unit :=
  for_each items (fun result_info =>
    let* url := lift (subscript result_info "url") in
    let* name := lift (subscript result_info "name") in
    download_file url (py_str name +:+ ".pdf")).

(** One turn of the [while] loop. *)
Definition loop_body (project : pyval) (l : locals) : M locals :=
  run say (ESleep interval) in
  let* project_id := lift (subscript project "id") in
  let* project_results := check_project_results project_id in
  let* project_status := lift (subscript project_results "status") in
  let* l' :=
    if py_eq_str project_status "Completed" then
      let* file_details := lift (subscript project_results "outputFileDetails") in
      let* items := lift (py_iter file_details) in
      run download_all items in
      ret {| isPending := false; isSuccess := true;
             failureDetails := failureDetails l; counter := counter l |}
    else if py_eq_str project_status "Failed" then
      let* details := lift (getattr project_results "statusDescription") in
      ret {| isPending := false; isSuccess := false;
             failureDetails := details; counter := counter l |}
    else ret l in
  ret {| isPending := isPending l'; isSuccess := isSuccess l';
         failureDetails := failureDetails l'; counter := counter l' + 1 |}.

(** [while isPending and counter < 20: ...], with fuel for the turns:
    [None] when the fuel runs out before the loop ends. *)
Fixpoint while_pending (fuel : nat) (project : pyval) (l : locals) (w : world)
  : option (outcome locals) :=
  if isPending l && (counter l <? max_attempts)%nat then
    match fuel with
    | 0 => None
    | S fuel' =>
        match loop_body project l w with
        | Ok l' w' => while_pending fuel' project l' w'
        | Raise e w' => Some (Raise e w')
        end
    end
  else Some (Ok l w).

(** The answer written after the loop. *)
Definition respond (l : locals) : M unit :=
  if isSuccess l then
    run say (ESendResponse 200) in
    run say (ESendHeader "Content-type" "text/html") in
    run say EEndHeaders in
    say (EWfile "Successfully saved a file.")
  else
    run say (ESendResponse 200) in
    run say (ESendHeader "Content-type" "text/html") in
    run say EEndHeaders in
    let* details := lift (str_encode (failureDetails l)) in
    say (EWfile ("Failed to render a file." +:+ details)).

(** The part of [do_POST] before the loop: the request body is loaded
    twice, for its [stateId] and its [userId], and the project is created.
    [body] is what [json.loads] makes of the posted bytes ([None] when they
    are not UTF-8 JSON). *)
Definition submit (body : option pyval) : M pyval :=
  let* b1 := json_loads_data body in
  let* state_id := lift (subscript b1 "stateId") in
  let* b2 := json_loads_data body in
  let* user_id := lift (subscript b2 "userId") in
  create_project state_id user_id (PyStr "Pdf") (PyStr "Cmyk") (PyInt 300).

Definition do_POST_fuel (fuel : nat) (body : option pyval) (w : world)
  : option (outcome unit) :=
  match submit body w with
  | Raise e w' => Some (Raise e w')
  | Ok project w' =>
      match while_pending fuel project initial_locals w' with
      | None => None
      | Some (Raise e w'') => Some (Raise e w'')
      | Some (Ok l w'') => Some (respond l w'')
      end
  end.

Definition do_POST : option pyval -> world -> option (outcome unit) :=
  do_POST_fuel max_attempts.

End Script.

(** ** Reading a run *)

(** The world a run of the handler starts in: some disk, an empty log. *)
Definition start (d : gmap string (list byte)) : world :=
  {| disk := d; log := [] |}.

(** What the caller of the handler gets: the lines written to the
    response, in order. *)
Definition response_of (w : world) : list event :=
  List.filter is_response_line (trace w).

(** The sleeps and status queries of a run, in order. *)
Definition polling_of (w : world) : list event :=
  List.filter is_poll_event (trace w).

(** The file events of a run, in order. *)
Definition files_of (w : world) : list event :=
  List.filter is_file_event (trace w).

(** The status a processing-results answer carries, if it carries one. *)
Definition status_of (r : reply) : option pyval :=
  match r with
  | Body (Some v) =>
      match subscript v "status" with
      | inr s => Some s
      | inl _ => None
      end
  | _ => None
  end.

Definition is_terminal (r : reply) : bool :=
  match status_of r with
  | Some s => py_eq_str s "Completed" || py_eq_str s "Failed"
  | None => false
  end.

(** ** Sample environments *)

Definition token_ok : reply :=
  Body (Some (PyDict [("access_token", PyStr "t0k3n")])).

Definition project_ok : reply :=
  Body (Some (PyDict [("id", PyStr "p1")])).

Definition status_body (status : string) : reply :=
  Body (Some (PyDict [("status", PyStr status)])).

Definition failed_body (description : string) : reply :=
  Body (Some (PyDict [("status", PyStr "Failed");
                      ("statusDescription", PyStr description)])).

Definition completed_body (details : list pyval) : reply :=
  Body (Some (PyDict [("status", PyStr "Completed");
                      ("outputFileDetails", PyList details)])).

Definition post_body : option pyval :=
  Some (PyDict [("stateId", PyStr "s1"); ("userId", PyStr "u1")]).

(** An environment whose token and submit calls succeed, whose status
    answers are those of [statuses] and then [Pending] for ever, and whose
    downloads are those of [files]. *)
Definition script_env (statuses : list reply)
    (files : pyval -> option (list read_result)) : env :=
  {| token_reply := fun _ => token_ok;
     submit_reply := project_ok;
     status_reply := fun n => nth n statuses (status_body "Pending");
     download_reply := files;
     open_fails := fun _ => false;
     write_fails := fun _ => false;
     str_other := fun _ => "" |}.

Definition no_files : pyval -> option (list read_result) := fun _ => None.

(** ** Events added by a computation *)

Definition quiet (evs : list event) : Prop := forallb plain evs = true.

(** [m] only adds plain events to the log. *)
Definition quietly {A} (m : M A) : Prop :=
  forall w, exists evs, log (world_of (m w)) = evs ++ log w /\ quiet evs.

(** ** One turn of the polling loop *)

Definition bump (l : locals) : locals :=
  {| isPending := isPending l; isSuccess := isSuccess l;
     failureDetails := failureDetails l; counter := counter l + 1 |}.

Definition succeeded (l : locals) : locals :=
  {| isPending := false; isSuccess := true;
     failureDetails := failureDetails l; counter := counter l + 1 |}.

(** What a turn started in [w] with locals [l] can come to. *)
Inductive turn (E : env) (l : locals) (w : world) : outcome locals -> Prop :=
| turn_unasked e w' evs :
    (* the project has no id, or no token could be had *)
    log w' = evs ++ ESleep interval :: log w -> quiet evs ->
    turn E l w (Raise e w')
| turn_raised e w' pid a evs1 evs2 :
    log w' = evs2 ++ ERequest (Status pid) a :: evs1 ++ ESleep interval :: log w ->
    quiet evs1 -> quiet evs2 ->
    turn E l w (Raise e w')
| turn_completed w' pid a evs1 evs2 :
    log w' = evs2 ++ ERequest (Status pid) a :: evs1 ++ ESleep interval :: log w ->
    quiet evs1 -> quiet evs2 ->
    status_of (status_reply E (queries w)) = Some (PyStr "Completed") ->
    turn E l w (Ok (succeeded l) w')
| turn_pending w' pid a evs1 evs2 :
    log w' = evs2 ++ ERequest (Status pid) a :: evs1 ++ ESleep interval :: log w ->
    quiet evs1 -> quiet evs2 ->
    is_terminal (status_reply E (queries w)) = false ->
    turn E l w (Ok (bump l) w').

(** ** The polling loop as a run of turns *)

Definition goes_on (l : locals) : bool :=
  isPending l && (counter l <? max_attempts)%nat.

Inductive polls (E : env) : locals -> world -> outcome locals -> Prop :=
| polls_exit l w :
    goes_on l = false -> polls E l w (Ok l w)
| polls_raise l w e w' :
    goes_on l = true -> turn E l w (Raise e w') -> polls E l w (Raise e w')
| polls_step l w l' w' o :
    goes_on l = true -> turn E l w (Ok l' w') -> polls E l' w' o ->
    polls E l w o.

(** The polling events of a run in the order they happened: every status
    query comes right after a wait of [interval]; a last wait may be left
    without its query. *)
Inductive waited : list event -> Prop :=
| waited_nil : waited []
| waited_last : waited [ESleep interval]
| waited_query q rest :
    is_query q = true -> waited rest -> waited (ESleep interval :: q :: rest).

Definition response_lines (text : string) : list event :=
  [ESendResponse 200; ESendHeader "Content-type" "text/html"; EEndHeaders;
   EWfile text].

(** The three ways a run of the handler can go. *)
Inductive handled (E : env) (body : option pyval) (w : world)
  : outcome unit -> Prop :=
| handled_unsubmitted e w1 :
    submit E body w = Raise e w1 ->
    handled E body w (Raise e w1)
| handled_broken project w1 e w2 :
    submit E body w = Ok project w1 ->
    polls E initial_locals w1 (Raise e w2) ->
    handled E body w (Raise e w2)
| handled_answered project w1 l w2 w3 :
    submit E body w = Ok project w1 ->
    polls E initial_locals w1 (Ok l w2) ->
    failureDetails l = PyStr "" ->
    respond l w2 = Ok tt w3 ->
    handled E body w (Ok tt w3).

(** ** Environments that answer *)

(** The token endpoint always hands out a token. *)
Definition auth_ok (E : env) : Prop :=
  forall n, exists v token,
    token_reply E n = Body (Some v) /\ subscript v "access_token" = inr token.

(** The render-hires endpoint answers a document with an [id]. *)
Definition submit_ok (E : env) : Prop :=
  exists project pid,
    submit_reply E = Body (Some project) /\ subscript project "id" = inr pid.

(** The posted body carries a [stateId] and a [userId]. *)
Definition body_ok (body : option pyval) : Prop :=
  exists b state_id user_id,
    body = Some b /\ subscript b "stateId" = inr state_id /\
    subscript b "userId" = inr user_id.

(** Local storage never fails. *)
Definition storage_ok (E : env) : Prop :=
  (forall f, open_fails E f = false) /\ (forall n, write_fails E n = false).

(** A status answer that keeps the loop going: it carries a status that is
    neither [Completed] nor [Failed]. *)
Definition still_running (r : reply) : bool :=
  match status_of r with
  | Some s => negb (py_eq_str s "Completed" || py_eq_str s "Failed")
  | None => false
  end.

(** The world after a wait and an answered status query. *)
Definition asked (pid : pyval) (a : string) (w : world) : world :=
  emit (ERelease (Status pid))
    (emit (ERequest (Status pid) a) (emit EToken (emit (ESleep interval) w))).

(** A world that differs from [w] by polling alone: [n] more queries, the
    same disk, the same response lines, the same file events. *)
Definition polled (n : nat) (w w' : world) : Prop :=
  queries w' = queries w + n /\ disk w' = disk w /\
  response_of w' = response_of w /\ files_of w' = files_of w.

(** ** The outcome a caller reads *)

Fixpoint strip_prefix (p s : string) : option string :=
  match p, s with
  | EmptyString, _ => Some s
  | String c p', String c' s' =>
      if Ascii.eqb c c' then strip_prefix p' s' else None
  | String _ _, EmptyString => None
  end.

(** The outcome of the specification. *)
Inductive Outcome : Type :=
| Success
| Failure (reason : string).

(** The outcome a response stands for: the success text, or the failure
    text followed by the reason. *)
Definition outcome_of_response (lines : list event) : option Outcome :=
  match lines with
  | [ESendResponse _; ESendHeader _ _; EEndHeaders; EWfile text] =>
      if String.eqb text "Successfully saved a file." then Some Success
      else option_map Failure (strip_prefix "Failed to render a file." text)
  | _ => None
  end.

(** The outcome of a run of the handler; there is none when an exception
    leaves the handler. *)
Definition outcome_of (r : option (outcome unit)) : option Outcome :=
  match r with
  | Some (Ok _ w) => outcome_of_response (response_of w)
  | _ => None
  end.

(** Following the specification (4.4, 7): the outcome of a run whose
    remote job failed carries the remote description, which may be empty. *)
Definition remote_job_failure (description : string) : Outcome :=
  Failure description.

(** ** A failed submission *)

(** The submission failed: [create_project] raised, or what it returned
    has no [id] to poll with. *)
Definition submission_failed (o : outcome pyval) : bool :=
  match o with
  | Raise _ _ => true
  | Ok project _ =>
      match subscript project "id" with
      | inl _ => true
      | inr _ => false
      end
  end.

(** C4, as the specification has it: the run answers a failure. *)
Definition answers_failure (r : option (outcome unit)) : Prop :=
  exists reason, outcome_of r = Some (Failure reason).

(** ** Downloads *)

Definition is_release (e : event) : bool :=
  match e with ERelease (Download _) => true | _ => false end.

Definition is_close (e : event) : bool :=
  match e with EClose _ => true | _ => false end.

(** The events of the read-and-write loop. *)
Definition is_stream (e : event) : bool :=
  match e with
  | ERead _ | EWrite _ _ | EWriteError _ => true
  | _ => false
  end.

(** A read asks for [chunk_size] bytes; a write stores no more. *)
Definition chunk_bounded (e : event) : bool :=
  match e with
  | ERead amt => (amt =? chunk_size)%N
  | EWrite _ data => (N.of_nat (length data) <=? chunk_size)%N
  | _ => true
  end.

Fixpoint bytes_written (l : list event) : nat :=
  match l with
  | [] => 0
  | EWrite _ data :: l' => length data + bytes_written l'
  | _ :: l' => bytes_written l'
  end.

Definition bytes_on_disk (d : gmap string (list byte)) : nat :=
  map_fold (fun _ content total => length content + total) 0 d.

Definition chunk_data (r : read_result) : list byte :=
  match r with
  | Chunk data => data
  | ReadError => []
  end.

(** The body the remote service has for [url]. *)
Definition remote_body (E : env) (url : pyval) : list byte :=
  match download_reply E url with
  | Some reads => concat (map chunk_data reads)
  | None => []
  end.

(** A read that gives some bytes, and no more than were asked for. *)
Definition good_read (r : read_result) : bool :=
  match r with
  | Chunk [] => false
  | Chunk data => (N.of_nat (length data) <=? chunk_size)%N
  | ReadError => false
  end.

(** The GET of [url] answers, and every read of its body is a good one. *)
Definition well_served (E : env) (url : pyval) : bool :=
  match download_reply E url with
  | Some reads => forallb good_read reads
  | None => false
  end.

(** A result descriptor, as a url and a name. *)
Definition descriptor_of (d : string * string) : pyval :=
  PyDict [("url", PyStr (fst d)); ("name", PyStr (snd d))].

Definition file_name (d : string * string) : string := snd d +:+ ".pdf".

(** The disk after the files of [ds] were stored one after the other. *)
Definition stored (E : env) (ds : list (string * string))
    (dsk : gmap string (list byte)) : gmap string (list byte) :=
  fold_left (fun m d => <[file_name d := remote_body E (PyStr (fst d))]> m) ds dsk.

(** A read that gives some bytes, however many. *)
Definition some_read (r : read_result) : bool :=
  match r with
  | Chunk (_ :: _) => true
  | _ => false
  end.

(** The GET of [url] answers and every read of its body gives some bytes;
    the read after the last one finds the end of the body. *)
Definition served (E : env) (url : pyval) : bool :=
  match download_reply E url with
  | Some reads => forallb some_read reads
  | None => false
  end.

(** The chunks in which the body of [url] comes. *)
Definition remote_chunks (E : env) (url : pyval) : list (list byte) :=
  match download_reply E url with
  | Some reads => map chunk_data reads
  | None => []
  end.

(** The reads and writes that bring a body coming in [chunks] to the file
    [f]: every chunk is asked for with [chunk_size] and written as it
    comes, before the next read; one more read finds the end. *)
Definition stream_of (f : string) (chunks : list (list byte)) : list event :=
  flat_map (fun c => [ERead chunk_size; EWrite f c]) chunks ++
  [ERead chunk_size].

(** The file events of the download of the descriptor [d]. *)
Definition file_events (E : env) (d : string * string) : list event :=
  EOpen (file_name d) ::
  stream_of (file_name d) (remote_chunks E (PyStr (fst d))) ++
  [EClose (file_name d)].

(** What a stretch of the log says about the files written. *)
Definition stores (n bytes : nat) (evs : list event) : Prop :=
  count is_open evs = n /\ bytes_written evs = bytes /\
  forallb chunk_bounded evs = true /\ quiet evs.

(** ** The fetch as a whole *)

Definition remote_total (E : env) (ds : list (string * string)) : nat :=
  list_sum (map (fun d => length (remote_body E (PyStr (fst d)))) ds).

(** C8, as the specification has it: after the fetch of [ds] into an
    empty folder there are as many files as descriptors, and together they
    are as long as the remote bodies. *)
Definition writes_every_file (E : env) (ds : list (string * string)) : Prop :=
  exists w',
    download_all E (map descriptor_of ds) (start ∅) = Ok tt w' /\
    size (disk w') = length ds /\
    bytes_on_disk (disk w') = remote_total E ds.

(** ** A completed job *)

(** The answer [r] says [Completed] and lists the files [items]. *)
Definition answers_completed (r : reply) (items : list pyval) : Prop :=
  exists v, r = Body (Some v) /\
            subscript v "status" = inr (PyStr "Completed") /\
            subscript v "outputFileDetails" = inr (PyList items).

(** ** Sample runs *)

(** Two remote files. *)
Definition two_files : pyval -> option (list read_result) :=
  fun url =>
    match url with
    | PyStr "u1" => Some [Chunk ["x"%byte]]
    | PyStr "u2" => Some [Chunk ["y"%byte; "z"%byte]; Chunk ["!"%byte]]
    | _ => None
    end.

(** Scenario of C7: [Pending], [InProgress], then [Completed] with one
    file. *)
Definition env_completed : env :=
  script_env [status_body "Pending"; status_body "InProgress";
              completed_body [descriptor_of ("u1", "a")]]
             two_files.

(** [Pending], [InProgress], then a [Completed] answer that carries the
    status and nothing else. *)
Definition env_completed_bare : env :=
  script_env [status_body "Pending"; status_body "InProgress";
              status_body "Completed"]
             no_files.

(** Scenario B: the job stays [Pending]. *)
Definition env_pending : env := script_env [] no_files.

(** Scenario C: the token endpoint rejects the client. *)
Definition env_rejected : env :=
  {| token_reply := fun _ => Body (Some (PyDict [("error", PyStr "invalid_client")]));
     submit_reply := project_ok;
     status_reply := fun _ => status_body "Pending";
     download_reply := no_files;
     open_fails := fun _ => false;
     write_fails := fun _ => false;
     str_other := fun _ => "" |}.

(** A disk that is full: every write fails. *)
Definition env_disk_full : env :=
  {| token_reply := fun _ => token_ok;
     submit_reply := project_ok;
     status_reply := fun _ => status_body "Pending";
     download_reply := two_files;
     open_fails := fun _ => false;
     write_fails := fun _ => true;
     str_other := fun _ => "" |}.

(** ** The claims as the specification words them *)

Definition first_poll_is_query (t : list event) : bool :=
  match List.filter is_poll_event t with
  | q :: _ => is_query q
  | [] => true
  end.

(** C2, as the specification has it: no wait comes before the first
    status query. *)
Definition first_query_unwaited (r : option (outcome unit)) : Prop :=
  match r with
  | Some o => first_poll_is_query (trace (world_of o)) = true
  | None => False
  end.

(** C3, as the specification has it: the run answers a failure whose
    reason sets it apart from a remote failure, even from one that came
    without a description. *)
Definition timeout_is_told (r : option (outcome unit)) : Prop :=
  exists reason,
    outcome_of r = Some (Failure reason) /\
    Failure reason <> remote_job_failure "".

(** C7, as the specification has it: when the first three status answers
    say [Pending], [InProgress], [Completed], the run returns with the
    success response after exactly 3 status queries. *)
Definition completes_on_third_query (E : env) (body : option pyval)
    (d : gmap string (list byte)) : Prop :=
  status_of (status_reply E 0) = Some (PyStr "Pending") ->
  status_of (status_reply E 1) = Some (PyStr "InProgress") ->
  status_of (status_reply E 2) = Some (PyStr "Completed") ->
  exists w',
    do_POST E body (start d) = Some (Ok tt w') /\
    queries w' = 3 /\
    outcome_of (do_POST E body (start d)) = Some Success.

(** C9, as the specification has it: once the GET of [download_file] has
    answered, the connection is released, however the call ends. *)
Definition releases_connection (E : env) (url : pyval) (f : string)
    (w : world) : Prop :=
  returned (bearer E w) = true -> download_reply E url <> None ->
  count is_release (log (world_of (download_file E url f w))) =
  S (count is_release (log w)).

(** * The rest of the script *)

(** ** What a computation may do to the world *)

(** [m] takes a world [w] to one related to it by [Rok] when it returns,
    by [Rr] when it raises. *)
Definition ends (Rok Rr : world -> world -> Prop) {A} (w : world)
    (o : outcome A) : Prop :=
  match o with
  | Ok _ w' => Rok w w'
  | Raise _ w' => Rr w w'
  end.

Definition framed (Rok Rr : world -> world -> Prop) {A} (m : M A) : Prop :=
  forall w, ends Rok Rr w (m w).

(** [w'] is [w] with some events [evs] added that satisfy [P]. *)
Definition adds (P : list event -> Prop) (w w' : world) : Prop :=
  exists evs, log w' = evs ++ log w /\ P evs.

(** The file [g] is the same in both worlds. *)
Definition same_file (g : string) (w w' : world) : Prop :=
  disk w' !! g = disk w !! g.

Definition is_request (e : event) : bool :=
  match e with ERequest _ _ => true | _ => false end.

Definition is_submit (e : event) : bool :=
  match e with ERequest (Submit _) _ => true | _ => false end.

Definition is_status_release (e : event) : bool :=
  match e with ERelease (Status _) => true | _ => false end.

Definition is_submit_release (e : event) : bool :=
  match e with ERelease (Submit _) => true | _ => false end.

(** As many token requests as API requests. *)
Definition balanced (evs : list event) : Prop :=
  count is_token evs = count is_request evs.

(** As many, or one token request more. *)
Definition owing (evs : list event) : Prop :=
  count is_request evs <= count is_token evs <= S (count is_request evs).

(** The access token the [n]-th token request of a run hands out, if it
    hands one out. *)
Definition token_of (E : env) (n : nat) : option pyval :=
  match token_reply E n with
  | Body (Some v) =>
      match subscript v "access_token" with
      | inr token => Some token
      | inl _ => None
      end
  | _ => None
  end.

(** Every API request of the trace [t] comes right after a token request
    of its own and carries the token which that very request handed out;
    [n] is the number of token requests made before [t].  A token request
    that hands out no token is the last event of the trace. *)
Fixpoint own_tokens (E : env) (n : nat) (t : list event) : bool :=
  match t with
  | [] => true
  | EToken :: t' =>
      match token_of E n, t' with
      | Some token, ERequest _ a :: t'' =>
          String.eqb a ("Bearer " +:+ py_str E token) && own_tokens E (S n) t''
      | None, [] => true
      | _, _ => false
      end
  | ERequest _ _ :: _ => false
  | _ :: t' => own_tokens E n t'
  end.

(** [w'] is [w] after events in which every request has its own token:
    none is owed when the computation returns, at most one when it
    raises. *)
Definition kept (E : env) (w w' : world) : Prop :=
  exists t, log w' = rev t ++ log w /\ balanced t /\
            own_tokens E (count is_token (log w)) t = true.

Definition cut (E : env) (w w' : world) : Prop :=
  exists t, log w' = rev t ++ log w /\ owing t /\
            own_tokens E (count is_token (log w)) t = true.

(** The seconds slept. *)
Fixpoint slept (l : list event) : nat :=
  match l with
  | [] => 0
  | ESleep secs :: l' => secs + slept l'
  | _ :: l' => slept l'
  end.

(** The bytes of the good reads. *)
Definition chunks_of (reads : list read_result) : list byte :=
  concat (map chunk_data reads).

(** No event of [evs] satisfies [p]. *)
Definition lacks (p : event -> bool) (evs : list event) : Prop :=
  count p evs = 0.

(** ** The editor page: [do_GET] and the helpers it calls *)

(** The two configuration values the page is built from. *)
Definition your_design_id : string := "Enter your design ID here...".

Definition your_system_user_id : string := "some_user_id_12345".

(** Answer of an endpoint whose body is decoded, then released, then
    loaded as JSON. *)
Inductive text_reply : Type :=
| NoAnswer                        (* the request itself raises *)
| Undecodable                     (* the body is not UTF-8 *)
| Text (parsed : option pyval).   (* [None]: the text is not JSON *)

(** What the editor side adds to the environment: the answers of the
    tenant-info and Design Editor token endpoints, by the number of
    requests made to each before, and the text of the page as a function
    of its four fields [user_id], [design_editor_token],
    [design_editor_url] and [design_id] (the HTML of the format string of
    [do_GET] is not spelled out here). *)
Record front : Type := {
  api : env;
  tenant_reply : nat -> text_reply;
  editor_reply : nat -> text_reply;
  page : string -> string -> string -> string -> string
}.

(** The calls of the editor side. *)
Inductive call : Type :=
| CTenant (authorization : string)
| CTenantRelease
| CEditorToken (url api_key : string)
| CEditorTokenRelease.

(** The world of the editor side: the world of the API helpers, and the
    calls made so far (newest first). *)
Record site : Type := {
  server : world;
  calls : list call
}.

Definition is_tenant (c : call) : bool :=
  match c with CTenant _ => true | _ => false end.

Definition is_tenant_release (c : call) : bool :=
  match c with CTenantRelease => true | _ => false end.

Definition is_editor (c : call) : bool :=
  match c with CEditorToken _ _ => true | _ => false end.

Definition tally (p : call -> bool) (l : list call) : nat :=
  length (List.filter p l).

Definition tenants (s : site) : nat := tally is_tenant (calls s).

Definition editors (s : site) : nat := tally is_editor (calls s).

Inductive result (A : Type) : Type :=
| Done (a : A) (s : site)
| Broke (e : exn) (s : site).
Arguments Done {A} a s.
Arguments Broke {A} e s.

Definition G (A : Type) : Type := site -> result A.

Definition gret {A} (a : A) : G A := fun s => Done a s.

Definition graise {A} (e : exn) : G A := fun s => Broke e s.

Definition gbind {A B} (m : G A) (k : A -> G B) : G B :=
  fun s =>
    match m s with
    | Done a s' => k a s'
    | Broke e s' => Broke e s'
    end.

Notation "'let+' x ':=' m 'in' k" := (gbind m (fun x => k))
  (at level 10, x name, m at level 100, k at level 200).
Notation "'run+' m 'in' k" := (gbind m (fun _ => k))
  (at level 10, m at level 100, k at level 200).

Definition glift {A} (r : exn + A) : G A :=
  match r with
  | inr a => gret a
  | inl e => graise e
  end.

(** A computation of the API side, run on the server world. *)
Definition on_server {A} (m : M A) : G A :=
  fun s =>
    match m (server s) with
    | Ok a w => Done a {| server := w; calls := calls s |}
    | Raise e w => Broke e {| server := w; calls := calls s |}
    end.

Definition note (c : call) : G unit :=
  fun s => Done tt {| server := server s; calls := c :: calls s |}.

Definition site_of {A} (r : result A) : site :=
  match r with
  | Done _ s => s
  | Broke _ s => s
  end.

Definition done {A} (r : result A) : bool :=
  match r with
  | Done _ _ => true
  | Broke _ _ => false
  end.

Section Editor.

Variable X : front.

(** [client.request(...)] followed by [r.data.decode('utf8')]. *)
Definition text_request (c : call) (r : text_reply) : G (option pyval) :=
  run+ note c in
  match r with
  | NoAnswer => graise HTTPError
  | Undecodable => graise ValueError
  | Text parsed => gret parsed
  end.

(** [json.loads(response_as_string)] *)
Definition json_loads (parsed : option pyval) : G pyval :=
  match parsed with
  | Some v => gret v
  | None => graise ValueError
  end.

Definition get_tenant_applications : G pyval :=
  let+ authorization := on_server (bearer (api X)) in
  fun s =>
    (let+ response_as_string :=
       text_request (CTenant authorization) (tenant_reply X (tenants s)) in
     run+ note CTenantRelease in
     json_loads response_as_string) s.

Definition get_design_editor_url : G pyval :=
  let+ applications := get_tenant_applications in
  glift (subscript applications "designEditorUrl").

Definition get_design_editor_apikey : G pyval :=
  let+ applications := get_tenant_applications in
  glift (subscript applications "designEditorApiKey").

(** The address the editor token is asked from. *)
Definition tokens_url (base_address user_id : pyval) : string :=
  py_str (api X) base_address +:+ "/api/Auth/Users/" +:+
  py_str (api X) user_id +:+ "/Tokens".

Definition get_design_editor_token (user_id : pyval) : G pyval :=
  let+ base_address := get_design_editor_url in
  let+ api_key := get_design_editor_apikey in
  fun s =>
    (let+ response_as_string :=
       text_request (CEditorToken (tokens_url base_address user_id)
                                  (py_str (api X) api_key))
                    (editor_reply X (editors s)) in
     run+ note CEditorTokenRelease in
     let+ token := json_loads response_as_string in
     glift (subscript token "tokenId")) s.

Definition do_GET : G unit :=
  run+ on_server (say (ESendResponse 200)) in
  run+ on_server (say (ESendHeader "Content-type" "text/html")) in
  run+ on_server (say EEndHeaders) in
  let+ design_editor_token :=
    get_design_editor_token (PyStr your_system_user_id) in
  let+ design_editor_url := get_design_editor_url in
  on_server
    (say (EWfile (page X your_system_user_id
                       (py_str (api X) design_editor_token)
                       (py_str (api X) design_editor_url)
                       your_design_id))).

End Editor.

(** The site a page load starts in. *)
Definition fresh_site (d : gmap string (list byte)) : site :=
  {| server := start d; calls := [] |}.

(** [s'] is [s] after [t] token requests, [n] tenant-info requests and [m]
    editor-token requests, and nothing else on the server side. *)
Definition spends (t n m : nat) (s s' : site) : Prop :=
  log (server s') = repeat EToken t ++ log (server s) /\
  disk (server s') = disk (server s) /\
  tenants s' = tenants s + n /\
  editors s' = editors s + m.

(** A front whose endpoints all answer. *)
Definition front_ok : front :=
  {| api := env_pending;
     tenant_reply := fun n =>
       Text (Some (PyDict [("designEditorUrl", PyStr "https://editor");
                           ("designEditorApiKey", PyStr "k3y")]));
     editor_reply := fun _ => Text (Some (PyDict [("tokenId", PyStr "tok")]));
     page := fun user_id token url design_id =>
       user_id +:+ "|" +:+ token +:+ "|" +:+ url +:+ "|" +:+ design_id |}.

(** A front whose tenant-info endpoint answers text that is not JSON. *)
Definition front_garbled : front :=
  {| api := env_pending;
     tenant_reply := fun _ => Text None;
     editor_reply := fun _ => NoAnswer;
     page := fun _ _ _ _ => "" |}.

(** The status line and headers of the page. *)
Definition header_lines : list event :=
  [ESendResponse 200; ESendHeader "Content-type" "text/html"; EEndHeaders].

(** * Proofs *)

(** ** Plain events *)

Lemma quiet_app evs1 evs2 : quiet evs1 -> quiet evs2 -> quiet (evs1 ++ evs2).
Proof.
  unfold quiet. intros H1 H2. rewrite forallb_app, H1, H2. reflexivity.
Qed.

Lemma quiet_count p evs :
  (forall e, p e = true -> plain e = false) -> quiet evs ->
  List.filter p evs = [].
Proof.
  intros Hp. unfold quiet. induction evs as [|e evs IH]; simpl; [reflexivity|].
  intros H. apply andb_prop in H as [He Hevs].
  destruct (p e) eqn:Hpe.
  - apply Hp in Hpe. congruence.
  - apply IH, Hevs.
Qed.

Lemma quietly_ret {A} (a : A) : quietly (ret a).
Proof. intros w. exists []. split; reflexivity. Qed.

Lemma quietly_raise {A} (e : exn) : quietly (@raise A e).
Proof. intros w. exists []. split; reflexivity. Qed.

Lemma quietly_lift {A} (r : exn + A) : quietly (lift r).
Proof. destruct r; [apply quietly_raise | apply quietly_ret]. Qed.

Lemma quietly_say e : plain e = true -> quietly (say e).
Proof.
  intros He w. exists [e]. split; [reflexivity|].
  unfold quiet. simpl. rewrite He. reflexivity.
Qed.

Lemma quietly_bind {A B} (m : M A) (k : A -> M B) :
  quietly m -> (forall a, quietly (k a)) -> quietly (bind m k).
Proof.
  intros Hm Hk w. unfold bind. destruct (Hm w) as (evs1 & E1 & Q1).
  destruct (m w) as [a w1|e w1]; simpl in E1.
  - destruct (Hk a w1) as (evs2 & E2 & Q2).
    exists (evs2 ++ evs1). split; [|apply quiet_app; assumption].
    rewrite E2, E1, app_assoc. reflexivity.
  - exists evs1. split; assumption.
Qed.

Lemma quietly_finally {A} (m : M A) (cleanup : M unit) :
  quietly m -> quietly cleanup -> quietly (finally m cleanup).
Proof.
  intros Hm Hc w. unfold finally. destruct (Hm w) as (evs1 & E1 & Q1).
  destruct (m w) as [a w1|e w1]; simpl in E1;
    destruct (Hc w1) as (evs2 & E2 & Q2);
    exists (evs2 ++ evs1);
    (split; [|apply quiet_app; assumption]);
    destruct (cleanup w1); simpl in E2 |- *;
    rewrite E2, E1, app_assoc; reflexivity.
Qed.

Lemma quietly_for_each {A} (xs : list A) (body : A -> M unit) :
  (forall x, quietly (body x)) -> quietly (for_each xs body).
Proof.
  intros Hb. induction xs as [|x xs IH]; simpl.
  - apply quietly_ret.
  - apply quietly_bind; [apply Hb | intros _; apply IH].
Qed.

Create HintDb quiet.
#[local] Hint Resolve quietly_ret quietly_raise quietly_lift quietly_bind
  quietly_finally quietly_for_each : quiet.

Section Quiet.

Variable E : env.

Lemma quietly_json_loads_data data : quietly (json_loads_data data).
Proof. destruct data; simpl; auto with quiet. Qed.

Lemma quietly_client_request e r : plain e = true -> quietly (client_request e r).
Proof.
  intros He w. exists [e]. unfold client_request, quiet. simpl.
  rewrite He. destruct r; split; reflexivity.
Qed.

Lemma quietly_get_access_token : quietly (get_access_token E).
Proof.
  intros w. unfold get_access_token.
  apply quietly_bind; [apply quietly_client_request; reflexivity|].
  intros data. apply quietly_bind; [apply quietly_json_loads_data|].
  auto with quiet.
Qed.

Lemma quietly_bearer : quietly (bearer E).
Proof.
  unfold bearer. apply quietly_bind; [apply quietly_get_access_token|].
  auto with quiet.
Qed.

Lemma quietly_create_project s u f c r : quietly (create_project E s u f c r).
Proof.
  unfold create_project.
  apply quietly_bind; [apply quietly_bearer|]. intros a.
  apply quietly_bind; [apply quietly_client_request; reflexivity|]. intros data.
  apply quietly_bind; [apply quietly_json_loads_data|]. intros v.
  apply quietly_bind; [apply quietly_say; reflexivity|]. auto with quiet.
Qed.

Lemma quietly_submit body : quietly (submit E body).
Proof.
  unfold submit.
  repeat (apply quietly_bind;
          [first [apply quietly_json_loads_data | apply quietly_lift]|intros ?]).
  apply quietly_create_project.
Qed.

Lemma quietly_open_wb f : quietly (open_wb E f).
Proof.
  intros w. unfold open_wb. destruct (open_fails E f); simpl.
  - exists []. split; reflexivity.
  - exists [EOpen f]. split; reflexivity.
Qed.

Lemma quietly_out_write f data : quietly (out_write E f data).
Proof.
  intros w. unfold out_write.
  destruct (write_fails E _); simpl;
    [exists [EWriteError f] | exists [EWrite f data]]; split; reflexivity.
Qed.

Lemma quietly_read_loop f reads : quietly (read_loop E f reads).
Proof.
  induction reads as [|r reads IH]; simpl.
  - apply quietly_bind; [apply quietly_say; reflexivity | auto with quiet].
  - apply quietly_bind; [apply quietly_say; reflexivity | intros _].
    destruct r as [[|b data]|]; auto with quiet.
    apply quietly_bind; [apply quietly_out_write | intros _; apply IH].
Qed.

Lemma quietly_download_file url f : quietly (download_file E url f).
Proof.
  unfold download_file.
  apply quietly_bind; [apply quietly_bearer | intros a].
  apply quietly_bind; [apply quietly_say; reflexivity | intros _].
  destruct (download_reply E url); auto with quiet.
  apply quietly_bind; [apply quietly_open_wb | intros _].
  apply quietly_bind; [|intros _; apply quietly_say; reflexivity].
  apply quietly_finally; [apply quietly_read_loop|].
  apply quietly_say; reflexivity.
Qed.

Lemma quietly_download_all items : quietly (download_all E items).
Proof.
  unfold download_all. apply quietly_for_each. intros x.
  apply quietly_bind; [apply quietly_lift | intros url].
  apply quietly_bind; [apply quietly_lift | intros name].
  apply quietly_download_file.
Qed.

End Quiet.

(** ** One turn of the polling loop *)

Lemma queries_quiet w w' evs :
  log w' = evs ++ log w -> quiet evs -> queries w' = queries w.
Proof.
  intros Hl Hq. unfold queries, count. rewrite Hl, List.filter_app.
  rewrite (quiet_count is_query evs); [reflexivity| |assumption].
  intros e He. unfold plain, is_poll_event. rewrite He, orb_true_r. reflexivity.
Qed.

Lemma py_eq_str_eq v s : py_eq_str v s = true -> v = PyStr s.
Proof.
  destruct v; simpl; try discriminate.
  intros H. apply String.eqb_eq in H. congruence.
Qed.

Lemma loop_body_turn E project l w : turn E l w (loop_body E project l w).
Proof.
  unfold loop_body, check_project_results, bind, say, lift, ret, raise,
    client_request, json_loads_data.
  destruct (subscript project "id") as [e|pid] eqn:Hid.
  { apply turn_unasked with (evs := []); reflexivity. }
  set (w1 := emit (ESleep interval) w).
  destruct (quietly_bearer E w1) as (evs1 & Hl1 & Hq1).
  destruct (bearer E w1) as [a w2|e w2]; simpl in Hl1.
  2:{ apply turn_unasked with (evs := evs1); assumption. }
  assert (Hqs : queries w2 = queries w).
  { rewrite (queries_quiet w1 w2 evs1) by assumption. reflexivity. }
  rewrite Hqs.
  destruct (status_reply E (queries w)) as [|[v|]] eqn:Hr; simpl.
  { apply turn_raised with (pid := pid) (a := a) (evs1 := evs1) (evs2 := []);
      [simpl; rewrite Hl1; reflexivity | assumption | reflexivity]. }
  2:{ apply turn_raised with (pid := pid) (a := a) (evs1 := evs1) (evs2 := []);
      [simpl; rewrite Hl1; reflexivity | assumption | reflexivity]. }
  set (w3 := emit (ERelease (Status pid)) (emit (ERequest (Status pid) a) w2)).
  assert (Hl3 : log w3 = [ERelease (Status pid)] ++
                 ERequest (Status pid) a :: evs1 ++ ESleep interval :: log w).
  { simpl. rewrite Hl1. reflexivity. }
  assert (Hstop : forall e w',
             log w' = log w3 -> turn E l w (@Raise locals e w')).
  { intros e w' Hw'.
    apply turn_raised with (pid := pid) (a := a) (evs1 := evs1)
                           (evs2 := [ERelease (Status pid)]);
      [rewrite Hw'; assumption | assumption | reflexivity]. }
  destruct (subscript v "status") as [e|s] eqn:Hs.
  { apply Hstop. reflexivity. }
  destruct (py_eq_str s "Completed") eqn:Hc.
  - apply py_eq_str_eq in Hc. subst s.
    destruct (subscript v "outputFileDetails") as [e|details].
    { apply Hstop. reflexivity. }
    destruct (py_iter details) as [e|items].
    { apply Hstop. reflexivity. }
    destruct (quietly_download_all E items w3) as (evs4 & Hl4 & Hq4).
    destruct (download_all E items w3) as [[] w4|e w4]; cbn [world_of] in Hl4.
    + apply turn_completed with (pid := pid) (a := a) (evs1 := evs1)
                                (evs2 := evs4 ++ [ERelease (Status pid)]).
      * rewrite Hl4, Hl3, <- app_assoc. reflexivity.
      * assumption.
      * apply quiet_app; [assumption | reflexivity].
      * unfold status_of. rewrite Hr, Hs. reflexivity.
    + apply turn_raised with (pid := pid) (a := a) (evs1 := evs1)
                             (evs2 := evs4 ++ [ERelease (Status pid)]).
      * rewrite Hl4, Hl3, <- app_assoc. reflexivity.
      * assumption.
      * apply quiet_app; [assumption | reflexivity].
  - destruct (py_eq_str s "Failed") eqn:Hf.
    + unfold getattr. apply Hstop. reflexivity.
    + apply turn_pending with (pid := pid) (a := a) (evs1 := evs1)
                              (evs2 := [ERelease (Status pid)]);
        [assumption | assumption | reflexivity |].
      unfold is_terminal, status_of. rewrite Hr, Hs, Hc, Hf. reflexivity.
Qed.

(** ** The polling loop *)

Lemma while_pending_polls E project fuel : forall l w,
  max_attempts - counter l <= fuel ->
  exists o, while_pending E fuel project l w = Some o /\ polls E l w o.
Proof.
  induction fuel as [|fuel IH]; intros l w Hfuel; simpl;
    fold (goes_on l); destruct (goes_on l) eqn:Hgo.
  - unfold goes_on in Hgo. apply andb_prop in Hgo as [_ Hlt].
    apply Nat.ltb_lt in Hlt. lia.
  - eexists. split; [reflexivity | apply polls_exit, Hgo].
  - pose proof (loop_body_turn E project l w) as Ht.
    destruct (loop_body E project l w) as [l' w'|e w'].
    + assert (Hc : counter l' = counter l + 1).
      { inversion Ht; reflexivity. }
      destruct (IH l' w') as (o & Ho & Hp); [lia|].
      exists o. split; [assumption | eapply polls_step; eassumption].
    + eexists. split; [reflexivity | apply polls_raise; assumption].
  - eexists. split; [reflexivity | apply polls_exit, Hgo].
Qed.

Lemma asked_queries w w' evs1 evs2 q :
  log w' = evs2 ++ q :: evs1 ++ ESleep interval :: log w ->
  quiet evs1 -> quiet evs2 -> is_query q = true ->
  queries w' = queries w + 1.
Proof.
  intros Hl H1 H2 Hq. unfold queries, count.
  rewrite Hl, List.filter_app. simpl. rewrite Hq, List.filter_app. simpl.
  rewrite !(quiet_count is_query) by
    (try assumption; intros e He; unfold plain, is_poll_event;
     rewrite He, orb_true_r; reflexivity).
  simpl. lia.
Qed.

Lemma turn_queries E l w o :
  turn E l w o -> queries (world_of o) <= queries w + 1.
Proof.
  intros Ht. inversion Ht; subst; simpl;
    try (erewrite asked_queries by (try eassumption; reflexivity); lia).
  erewrite (queries_quiet (emit (ESleep interval) w) w') by eassumption.
  unfold queries, count. simpl. lia.
Qed.

Lemma turn_Ok_queries E l w l' w' :
  turn E l w (Ok l' w') -> queries w' = queries w + 1.
Proof.
  intros Ht. inversion Ht; subst; eapply asked_queries;
    try eassumption; reflexivity.
Qed.

Lemma polls_queries E l w o :
  polls E l w o ->
  queries (world_of o) <= queries w + (max_attempts - counter l).
Proof.
  induction 1 as [l w Hgo | l w e w' Hgo Ht | l w l' w' o Hgo Ht Hp IH].
  - simpl. lia.
  - apply turn_queries in Ht. simpl in Ht |- *.
    unfold goes_on in Hgo. apply andb_prop in Hgo as [_ Hlt].
    apply Nat.ltb_lt in Hlt. lia.
  - assert (Hc : counter l' = counter l + 1) by (inversion Ht; reflexivity).
    apply turn_Ok_queries in Ht.
    unfold goes_on in Hgo. apply andb_prop in Hgo as [_ Hlt].
    apply Nat.ltb_lt in Hlt. lia.
Qed.



Lemma rev_filter (p : event -> bool) l :
  List.filter p (rev l) = rev (List.filter p l).
Proof.
  induction l as [|e l IH]; simpl; [reflexivity|].
  rewrite List.filter_app, IH. simpl. destruct (p e); simpl.
  - reflexivity.
  - rewrite app_nil_r. reflexivity.
Qed.

Lemma plain_not_poll e : is_poll_event e = true -> plain e = false.
Proof. intros H. unfold plain. rewrite H. reflexivity. Qed.

Lemma plain_not_response e : is_response_line e = true -> plain e = false.
Proof. intros H. unfold plain. rewrite H, andb_false_r. reflexivity. Qed.

Lemma turn_polling E l w o :
  turn E l w o ->
  polling_of (world_of o) = polling_of w ++ [ESleep interval] \/
  exists q, is_query q = true /\
            polling_of (world_of o) = polling_of w ++ [ESleep interval; q].
Proof.
  assert (Ha : forall w' evs, log w' = evs ++ ESleep interval :: log w ->
             quiet evs -> polling_of w' = polling_of w ++ [ESleep interval]).
  { intros w' evs Hl Hq. unfold polling_of, trace.
    rewrite !rev_filter, Hl, List.filter_app.
    rewrite (quiet_count _ evs plain_not_poll Hq). reflexivity. }
  assert (Hb : forall w' evs1 evs2 pid a,
    log w' = evs2 ++ ERequest (Status pid) a :: evs1 ++ ESleep interval :: log w ->
    quiet evs1 -> quiet evs2 ->
    polling_of w' = polling_of w ++ [ESleep interval; ERequest (Status pid) a]).
  { intros w' evs1 evs2 pid a Hl H1 H2. unfold polling_of, trace.
    rewrite !rev_filter, Hl, List.filter_app.
    rewrite (quiet_count _ evs2 plain_not_poll H2). simpl.
    rewrite List.filter_app, (quiet_count _ evs1 plain_not_poll H1). simpl.
    rewrite <- app_assoc. reflexivity. }
  intros Ht. inversion Ht; subst; simpl;
    [left; eapply Ha; eassumption | right ..];
    (eexists; split; [|eapply Hb; eassumption]; reflexivity).
Qed.

Lemma polls_waited E l w o :
  polls E l w o ->
  exists added, polling_of (world_of o) = polling_of w ++ added /\ waited added.
Proof.
  induction 1 as [l w Hgo | l w e w' Hgo Ht | l w l' w' o Hgo Ht Hp IH].
  - exists []. rewrite app_nil_r. split; [reflexivity | constructor].
  - destruct (turn_polling _ _ _ _ Ht) as [Hs | (q & Hq & Hs)]; simpl in Hs.
    + eexists. split; [exact Hs | constructor].
    + eexists. split; [exact Hs | repeat constructor; assumption].
  - destruct IH as (added & Ho & Hw).
    destruct (turn_polling _ _ _ _ Ht) as [Hs | (q & Hq & Hs)]; simpl in Hs.
    + exfalso. apply turn_Ok_queries in Ht. revert Ht.
      unfold queries, count. 
      assert (Hpq : forall w0, List.filter is_query (log w0) =
                               rev (List.filter is_query (polling_of w0))).
      { intros w0. unfold polling_of, trace. rewrite !rev_filter, rev_involutive.
        induction (log w0) as [|e0 l0 IH0]; simpl; [reflexivity|].
        unfold is_poll_event at 1.
        destruct (is_query e0) eqn:Hq0; simpl.
        - rewrite orb_true_r. simpl. rewrite Hq0, IH0. reflexivity.
        - rewrite orb_false_r. destruct (is_sleep e0); simpl;
            [rewrite Hq0|]; exact IH0. }
      rewrite !Hpq, Hs, List.filter_app, !length_rev, length_app. simpl. lia.
    + exists (ESleep interval :: q :: added). split; [|constructor; assumption].
      rewrite Ho, Hs, <- app_assoc. reflexivity.
Qed.



Lemma polls_locals E l w l' w' :
  polls E l w (Ok l' w') -> failureDetails l' = failureDetails l.
Proof.
  intros Hp. remember (Ok l' w') as o eqn:Ho. revert l' w' Ho.
  induction Hp as [l w Hgo | l w e w' Hgo Ht | l w l1 w1 o Hgo Ht Hp IH];
    intros l' w2 Ho.
  - congruence.
  - discriminate.
  - rewrite (IH _ _ Ho). inversion Ht; reflexivity.
Qed.

(** ** The whole handler *)

Lemma quiet_world {A} (m : M A) w :
  quietly m ->
  queries (world_of (m w)) = queries w /\
  polling_of (world_of (m w)) = polling_of w /\
  response_of (world_of (m w)) = response_of w.
Proof.
  intros Hm. destruct (Hm w) as (evs & Hl & Hq). repeat split.
  - eapply queries_quiet; eassumption.
  - unfold polling_of, trace. rewrite !rev_filter, Hl, List.filter_app.
    rewrite (quiet_count _ evs plain_not_poll Hq). reflexivity.
  - unfold response_of, trace. rewrite !rev_filter, Hl, List.filter_app.
    rewrite (quiet_count _ evs plain_not_response Hq). reflexivity.
Qed.

Lemma respond_spec l w :
  failureDetails l = PyStr "" ->
  exists w', respond l w = Ok tt w' /\
    disk w' = disk w /\
    log w' = rev (response_lines
                    (if isSuccess l then "Successfully saved a file."
                     else "Failed to render a file.")) ++ log w.
Proof.
  intros Hd. unfold respond, bind, say, lift. rewrite Hd.
  destruct (isSuccess l); simpl; eexists; repeat split.
Qed.

Lemma do_POST_handled E body w :
  exists o, do_POST E body w = Some o /\ handled E body w o.
Proof.
  unfold do_POST, do_POST_fuel.
  destruct (submit E body w) as [project w1|e w1] eqn:Hs.
  - destruct (while_pending_polls E project max_attempts initial_locals w1)
      as (o & Ho & Hp); [unfold max_attempts; simpl; lia|].
    rewrite Ho. destruct o as [l w2|e w2].
    + pose proof (polls_locals _ _ _ _ _ Hp) as Hd. simpl in Hd.
      destruct (respond_spec l w2 Hd) as (w3 & Hr & _).
      rewrite Hr. eexists. split; [reflexivity|].
      eapply handled_answered; eassumption.
    + eexists. split; [reflexivity|]. eapply handled_broken; eassumption.
  - eexists. split; [reflexivity|]. apply handled_unsubmitted. assumption.
Qed.

Lemma respond_world l w w' :
  failureDetails l = PyStr "" -> respond l w = Ok tt w' ->
  queries w' = queries w /\
  polling_of w' = polling_of w /\
  response_of w' =
    response_of w ++
    response_lines (if isSuccess l then "Successfully saved a file."
                    else "Failed to render a file.").
Proof.
  intros Hd Hr. destruct (respond_spec l w Hd) as (w1 & Hr1 & _ & Hl).
  rewrite Hr in Hr1. injection Hr1 as <-.
  unfold queries, count, polling_of, response_of, trace.
  rewrite !rev_filter, Hl, !List.filter_app.
  destruct (isSuccess l); simpl; repeat split;
    rewrite <- !app_assoc; reflexivity.
Qed.

(** The status queries of a run are those of its polling loop. *)
Lemma handled_polls E body w o :
  handled E body w o ->
  (queries (world_of o) = queries w /\ polling_of (world_of o) = polling_of w) \/
  exists w1 l o1,
    polls E l w1 o1 /\ counter l = 0 /\
    queries w1 = queries w /\ polling_of w1 = polling_of w /\
    queries (world_of o) = queries (world_of o1) /\
    polling_of (world_of o) = polling_of (world_of o1).
Proof.
  intros H.
  destruct H as [e w1 Hs | project w1 e w2 Hs Hp | project w1 l w2 w3 Hs Hp Hd Hr].
  - left. destruct (quiet_world (submit E body) w (quietly_submit E body))
      as (Hq & Hpo & _).
    rewrite Hs in Hq, Hpo. split; assumption.
  - right. destruct (quiet_world (submit E body) w (quietly_submit E body))
      as (Hq & Hpo & _).
    rewrite Hs in Hq, Hpo. exists w1, initial_locals, (Raise e w2).
    repeat split; assumption.
  - right. destruct (quiet_world (submit E body) w (quietly_submit E body))
      as (Hq & Hpo & _).
    rewrite Hs in Hq, Hpo.
    destruct (respond_world l w2 w3 Hd Hr) as (Hq3 & Hp3 & _).
    exists w1, initial_locals, (Ok l w2). repeat split; assumption.
Qed.

(** ** Every run *)

(** C5: whatever the remote service answers, a run of the handler ends,
    and it has issued at most 20 status queries. *)
Theorem polling_is_bounded E body d :
  exists o, do_POST E body (start d) = Some o /\ queries (world_of o) <= 20.
Proof.
  destruct (do_POST_handled E body (start d)) as (o & Ho & Hh).
  exists o. split; [assumption|].
  destruct (handled_polls _ _ _ _ Hh)
    as [[Hq _] | (w1 & l & o1 & Hp & Hc & Hq1 & _ & Hq & _)].
  - rewrite Hq. unfold queries, count. simpl. lia.
  - apply polls_queries in Hp. rewrite Hq, Hc, Hq1 in *.
    unfold queries at 2, count in Hp. simpl in Hp. exact Hp.
Qed.


(** C2, as the script has it: the polling events of every run are
    wait, query, wait, query, ...: each status query, the first one too,
    comes right after a wait of 3 seconds. *)
Theorem every_query_is_waited_for E body d :
  exists o, do_POST E body (start d) = Some o /\
            waited (polling_of (world_of o)) /\ interval = 3.
Proof.
  destruct (do_POST_handled E body (start d)) as (o & Ho & Hh).
  exists o. split; [assumption|]. split; [|reflexivity].
  destruct (handled_polls _ _ _ _ Hh)
    as [[_ Hq] | (w1 & l & o1 & Hp & _ & _ & Hp1 & _ & Hq)].
  - rewrite Hq. constructor.
  - destruct (polls_waited _ _ _ _ Hp) as (added & Ha & Hw).
    rewrite Hq, Ha, Hp1. exact Hw.
Qed.


(** ** Runs in an environment that answers *)

Lemma bearer_ok E w :
  auth_ok E -> exists a, bearer E w = Ok a (emit EToken w).
Proof.
  intros Ha. destruct (Ha (count is_token (log w))) as (v & token & Hr & Hs).
  unfold bearer, get_access_token, bind, client_request, json_loads_data, lift.
  rewrite Hr. simpl. rewrite Hs. eexists. reflexivity.
Qed.

Lemma queries_asked pid a w : queries (asked pid a w) = S (queries w).
Proof. reflexivity. Qed.

Lemma loop_body_answered E project pid l w v s :
  auth_ok E -> subscript project "id" = inr pid ->
  status_reply E (queries w) = Body (Some v) ->
  subscript v "status" = inr s ->
  exists a,
    loop_body E project l w =
    if py_eq_str s "Completed" then
      match subscript v "outputFileDetails" with
      | inl e => Raise e (asked pid a w)
      | inr details =>
          match py_iter details with
          | inl e => Raise e (asked pid a w)
          | inr items =>
              match download_all E items (asked pid a w) with
              | Ok _ w' => Ok (succeeded l) w'
              | Raise e w' => Raise e w'
              end
          end
      end
    else if py_eq_str s "Failed" then
      Raise (AttributeError "statusDescription") (asked pid a w)
    else Ok (bump l) (asked pid a w).
Proof.
  intros Ha Hid Hr Hs.
  destruct (bearer_ok E (emit (ESleep interval) w) Ha) as (a & Hb).
  exists a.
  unfold loop_body, check_project_results, bind, say, lift, ret, raise,
    client_request, json_loads_data.
  rewrite Hid, Hb.
  change (queries (emit EToken (emit (ESleep interval) w))) with (queries w).
  rewrite Hr. unfold ret. cbv beta iota. rewrite Hs. cbv beta iota.
  destruct (py_eq_str s "Completed").
  - destruct (subscript v "outputFileDetails") as [e|details]; [reflexivity|].
    destruct (py_iter details) as [e|items]; [reflexivity|].
    fold (asked pid a w).
    destruct (download_all E items (asked pid a w)) as [[] w'|e w']; reflexivity.
  - destruct (py_eq_str s "Failed"); reflexivity.
Qed.

Lemma still_running_inv r :
  still_running r = true ->
  exists v s, r = Body (Some v) /\ subscript v "status" = inr s /\
              py_eq_str s "Completed" = false /\ py_eq_str s "Failed" = false.
Proof.
  unfold still_running, status_of. destruct r as [|[v|]]; try discriminate.
  destruct (subscript v "status") as [e|s] eqn:Hs; try discriminate.
  intros H. apply negb_true_iff, orb_false_iff in H as [Hc Hf].
  exists v, s. repeat split; assumption.
Qed.

Lemma status_of_inv r s :
  status_of r = Some s ->
  exists v, r = Body (Some v) /\ subscript v "status" = inr s.
Proof.
  unfold status_of. destruct r as [|[v|]]; try discriminate.
  destruct (subscript v "status") as [e|s'] eqn:Hs; try discriminate.
  intros [= ->]. exists v. split; [reflexivity | assumption].
Qed.

Lemma polled_asked pid a w : polled 1 w (asked pid a w).
Proof.
  split; [rewrite queries_asked; lia|]. split; [reflexivity|].
  split; [unfold response_of | unfold files_of]; unfold trace;
    rewrite !rev_filter; reflexivity.
Qed.

Lemma polled_trans n m w1 w2 w3 :
  polled n w1 w2 -> polled m w2 w3 -> polled (n + m) w1 w3.
Proof.
  intros (Q1 & D1 & R1 & F1) (Q2 & D2 & R2 & F2).
  repeat split; [lia | congruence ..].
Qed.

(** [n] answers that keep the loop going are [n] turns of it. *)
Lemma while_pending_running E project pid n : forall fuel l w,
  auth_ok E -> subscript project "id" = inr pid ->
  isPending l = true -> counter l + n <= max_attempts ->
  (forall i, i < n -> still_running (status_reply E (queries w + i)) = true) ->
  exists w',
    polled n w w' /\
    while_pending E (n + fuel) project l w =
    while_pending E fuel project (Nat.iter n bump l) w'.
Proof.
  induction n as [|n IH]; intros fuel l w Ha Hid Hp Hc Hrun.
  - exists w. split; [|reflexivity]. split; [lia | repeat split].
  - destruct (still_running_inv _ (Hrun 0 ltac:(lia)))
      as (v & s & Hr & Hs & Hnc & Hnf).
    rewrite Nat.add_0_r in Hr.
    destruct (loop_body_answered E project pid l w v s Ha Hid Hr Hs) as (a & Hb).
    rewrite Hnc, Hnf in Hb.
    destruct (IH fuel (bump l) (asked pid a w) Ha Hid Hp) as (w' & Hpo & Hw).
    { simpl. lia. }
    { intros i Hi. rewrite queries_asked.
      replace (S (queries w) + i) with (queries w + S i) by lia.
      apply Hrun. lia. }
    exists w'. split.
    + apply (polled_trans 1 n w (asked pid a w) w'); [apply polled_asked | exact Hpo].
    + change (S n + fuel) with (S (n + fuel)).
      cbn [while_pending]. rewrite Hp.
      assert (Hlt : (counter l <? max_attempts)%nat = true)
        by (apply Nat.ltb_lt; lia).
      rewrite Hlt. cbn [andb]. rewrite Hb, Hw.
      rewrite Nat.iter_succ_r. reflexivity.
Qed.

Lemma iter_bump n l :
  Nat.iter n bump l =
  {| isPending := isPending l; isSuccess := isSuccess l;
     failureDetails := failureDetails l; counter := counter l + n |}.
Proof.
  induction n as [|n IH]; simpl.
  - destruct l; simpl. rewrite Nat.add_0_r. reflexivity.
  - rewrite IH. unfold bump. simpl. f_equal. lia.
Qed.

Lemma submit_answered E body w :
  auth_ok E -> submit_ok E -> body_ok body ->
  exists project pid w',
    submit E body w = Ok project w' /\ subscript project "id" = inr pid /\
    polled 0 w w'.
Proof.
  intros Ha (project & pid & Hr & Hid) (b & s & u & -> & Hs & Hu).
  destruct (bearer_ok E w Ha) as (a & Hb).
  exists project, pid.
  unfold submit, create_project, bind, json_loads_data, lift, ret,
    client_request, say.
  rewrite Hs, Hu, Hb, Hr. eexists. split; [reflexivity|].
  split; [assumption|].
  split; [unfold queries, count; simpl; lia|]. split; [reflexivity|].
  split; [unfold response_of | unfold files_of]; unfold trace;
    rewrite !rev_filter; reflexivity.
Qed.

Lemma do_POST_running E body d n :
  auth_ok E -> submit_ok E -> body_ok body -> n <= max_attempts ->
  (forall i, i < n -> still_running (status_reply E i) = true) ->
  exists project pid w,
    subscript project "id" = inr pid /\ polled n (start d) w /\
    do_POST E body (start d) =
    match while_pending E (max_attempts - n) project
            (Nat.iter n bump initial_locals) w with
    | None => None
    | Some (Raise e w') => Some (Raise e w')
    | Some (Ok l w') => Some (respond l w')
    end.
Proof.
  intros Ha Hsub Hbody Hn Hrun.
  destruct (submit_answered E body (start d) Ha Hsub Hbody)
    as (project & pid & w1 & Hs & Hid & Hp1).
  destruct (while_pending_running E project pid n (max_attempts - n)
              initial_locals w1 Ha Hid eq_refl) as (w2 & Hp2 & Hw).
  { simpl. lia. }
  { intros i Hi. destruct Hp1 as (-> & _). simpl. apply Hrun, Hi. }
  exists project, pid, w2. split; [assumption|]. split.
  - apply (polled_trans 0 n _ _ _ Hp1 Hp2).
  - unfold do_POST, do_POST_fuel. rewrite Hs.
    replace (n + (max_attempts - n)) with max_attempts in Hw by lia.
    rewrite Hw. reflexivity.
Qed.

(** C3, as the script has it: when the first 20 answers all keep the
    loop going, the run ends after exactly 20 queries with the failure
    text and an empty reason. *)
Theorem exhausted_budget_answers_failed E body d :
  auth_ok E -> submit_ok E -> body_ok body ->
  (forall i, i < 20 -> still_running (status_reply E i) = true) ->
  exists w',
    do_POST E body (start d) = Some (Ok tt w') /\
    queries w' = 20 /\
    response_of w' = response_lines "Failed to render a file." /\
    outcome_of (do_POST E body (start d)) = Some (Failure "").
Proof.
  intros Ha Hsub Hbody Hrun.
  destruct (do_POST_running E body d max_attempts Ha Hsub Hbody (le_n _) Hrun)
    as (project & pid & w & _ & Hp & Hdo).
  rewrite Nat.sub_diag, iter_bump in Hdo. simpl in Hdo.
  destruct Hp as (Hq & _ & Hr & _).
  change (queries w = 20) in Hq. change (response_of w = []) in Hr.
  match type of Hdo with _ = Some (respond ?l w) =>
    destruct (respond_spec l w eq_refl) as (w' & Hresp & _ & _);
    pose proof (respond_world l w w' eq_refl Hresp) as (Hq' & _ & Hr')
  end.
  rewrite Hresp in Hdo. simpl in Hr'. rewrite Hr in Hr'. simpl in Hr'.
  exists w'. split; [exact Hdo|]. split; [rewrite Hq', Hq; reflexivity|].
  split; [exact Hr'|]. rewrite Hdo. simpl. rewrite Hr'. reflexivity.
Qed.

(** When the answer to query [n + 1] is [Failed], the run stops there, by
    the [AttributeError] of [project_results.statusDescription]: nothing is
    sent to the caller. *)
Lemma failed_answer_raises E body d n :
  auth_ok E -> submit_ok E -> body_ok body -> n < 20 ->
  (forall i, i < n -> still_running (status_reply E i) = true) ->
  status_of (status_reply E n) = Some (PyStr "Failed") ->
  exists w',
    do_POST E body (start d) =
      Some (Raise (AttributeError "statusDescription") w') /\
    queries w' = S n /\ response_of w' = [].
Proof.
  intros Ha Hsub Hbody Hn Hrun Hfail.
  destruct (do_POST_running E body d n Ha Hsub Hbody) as
    (project & pid & w & Hid & (Hq & _ & Hr & _) & Hdo);
    [unfold max_attempts; lia | assumption |].
  change (queries w = n) in Hq. change (response_of w = []) in Hr.
  destruct (status_of_inv _ _ Hfail) as (v & Hv & Hs).
  rewrite <- Hq in Hv.
  destruct (loop_body_answered E project pid
              (Nat.iter n bump initial_locals) w v _ Ha Hid Hv Hs) as (a & Hb).
  simpl in Hb.
  destruct (max_attempts - n) as [|fuel] eqn:Hfuel;
    [unfold max_attempts in Hfuel; lia|].
  cbn [while_pending] in Hdo. rewrite Hb, iter_bump in Hdo.
  cbn [isPending counter initial_locals andb] in Hdo.
  assert (Hlt : (0 + n <? max_attempts)%nat = true)
    by (apply Nat.ltb_lt; unfold max_attempts; lia).
  rewrite Hlt in Hdo.
  exists (asked pid a w). split; [exact Hdo|].
  destruct (polled_asked pid a w) as (Hq1 & _ & Hr1 & _).
  split; [rewrite Hq1, Hq; lia | rewrite Hr1; exact Hr].
Qed.

(** C1, at the run of scenario D: the second answer is [Failed] with the
    description "render error".  Polling stops at the second query, but by
    an [AttributeError]: no response is written, the caller gets no
    outcome at all. *)
Theorem failed_job_raises_attribute_error :
  let r := do_POST (script_env [status_body "Pending"; failed_body "render error"]
                               no_files)
                   post_body (start ∅) in
  exists w',
    r = Some (Raise (AttributeError "statusDescription") w') /\
    queries w' = 2 /\ response_of w' = [] /\ outcome_of r = None.
Proof.
  vm_compute. eexists. repeat split.
Qed.

(** C4, as the script has it: when the submission fails, an exception
    leaves the handler; no status query is issued and nothing is sent to
    the caller. *)
Theorem failed_submission_raises E body d :
  submission_failed (submit E body (start d)) = true ->
  exists e w',
    do_POST E body (start d) = Some (Raise e w') /\
    queries w' = 0 /\ response_of w' = [].
Proof.
  intros Hf.
  destruct (quiet_world (submit E body) (start d) (quietly_submit E body))
    as (Hq & _ & Hr).
  unfold do_POST, do_POST_fuel.
  destruct (submit E body (start d)) as [project w1|e w1]; simpl in Hf, Hq, Hr.
  - destruct (subscript project "id") as [e|pid] eqn:Hid; [|discriminate].
    exists e, (emit (ESleep interval) w1).
    unfold max_attempts. cbn [while_pending].
    unfold initial_locals at 1 2. cbn [isPending counter andb].
    unfold loop_body, bind, say, lift, raise. rewrite Hid.
    split; [reflexivity|]. split.
    + exact Hq.
    + unfold response_of, trace in *. simpl.
      rewrite List.filter_app. simpl. rewrite app_nil_r. exact Hr.
  - exists e, w1. repeat split; assumption.
Qed.

(** ** Downloads *)

Lemma bearer_log E w : log (world_of (bearer E w)) = EToken :: log w.
Proof.
  unfold bearer, get_access_token, bind, client_request, json_loads_data, lift.
  destruct (token_reply E _) as [|[v|]]; simpl; try reflexivity.
  destruct (subscript v "access_token"); reflexivity.
Qed.

Lemma read_loop_stream E f reads : forall w,
  exists evs, log (world_of (read_loop E f reads w)) = evs ++ log w /\
              forallb is_stream evs = true.
Proof.
  induction reads as [|r reads IH]; intros w.
  - exists [ERead chunk_size]. split; reflexivity.
  - destruct r as [[|b data]|].
    + exists [ERead chunk_size]. split; reflexivity.
    + cbn [read_loop]. unfold bind at 1, say. unfold bind, out_write.
      destruct (write_fails E _).
      * exists [EWriteError f; ERead chunk_size]. split; reflexivity.
      * match goal with |- context [read_loop E f reads ?w1] =>
          destruct (IH w1) as (evs & Hl & Hs) end.
        exists (evs ++ [EWrite f (b :: data); ERead chunk_size]).
        rewrite Hl, <- app_assoc, forallb_app, Hs. split; reflexivity.
    + exists [ERead chunk_size]. split; reflexivity.
Qed.

Lemma stream_count (p : event -> bool) evs :
  (forall e, is_stream e = true -> p e = false) ->
  forallb is_stream evs = true -> count p evs = 0.
Proof.
  intros Hp. unfold count. induction evs as [|e evs IH]; simpl; [reflexivity|].
  intros H. apply andb_prop in H as [He Hevs].
  rewrite (Hp e He). apply IH, Hevs.
Qed.

Lemma count_app p l1 l2 : count p (l1 ++ l2) = count p l1 + count p l2.
Proof. unfold count. rewrite List.filter_app, length_app. reflexivity. Qed.

(** C9, as the script has it: [download_file] calls [release_conn] as its
    last step when it returns; when it raises, it leaves without having
    called it, though every file it opened has been closed. *)
Theorem download_file_releases_on_return E url f w :
  match download_file E url f w with
  | Ok _ w' =>
      exists evs, log w' = ERelease (Download url) :: evs ++ log w /\
                  count is_release evs = 0
  | Raise _ w' =>
      exists evs, log w' = evs ++ log w /\
                  count is_release evs = 0 /\
                  count is_open evs = count is_close evs
  end.
Proof.
  unfold download_file, bind at 1.
  pose proof (bearer_log E w) as Hb.
  destruct (bearer E w) as [a w1|e w1]; simpl in Hb.
  2:{ exists [EToken]. rewrite Hb. repeat split. }
  unfold bind at 1, say.
  destruct (download_reply E url) as [reads|].
  2:{ exists [ERequest (Download url) a; EToken]. simpl. rewrite Hb.
      repeat split. }
  unfold bind at 1, open_wb.
  destruct (open_fails E f).
  { exists [ERequest (Download url) a; EToken]. simpl. rewrite Hb.
    repeat split. }
  unfold bind at 1, finally.
  match goal with |- context [read_loop E f reads ?w2] =>
    destruct (read_loop_stream E f reads w2) as (evs & Hl & Hs);
    destruct (read_loop E f reads w2) as [[] w3|e w3]
  end; simpl in Hl; simpl.
  - exists (EClose f :: evs ++ [EOpen f; ERequest (Download url) a; EToken]).
    rewrite Hl, Hb. split.
    + simpl. rewrite <- app_assoc. reflexivity.
    + change (count is_release (evs ++ [EOpen f; ERequest (Download url) a; EToken]) = 0).
      rewrite count_app, (stream_count is_release evs) by
        (try assumption; intros []; simpl; congruence).
      reflexivity.
  - exists (EClose f :: evs ++ [EOpen f; ERequest (Download url) a; EToken]).
    rewrite Hl, Hb. split; [|split].
    + simpl. rewrite <- app_assoc. reflexivity.
    + change (count is_release (evs ++ [EOpen f; ERequest (Download url) a; EToken]) = 0).
      rewrite count_app, (stream_count is_release evs) by
        (try assumption; intros []; simpl; congruence).
      reflexivity.
    + change (count is_open (evs ++ [EOpen f; ERequest (Download url) a; EToken]) =
              S (count is_close (evs ++ [EOpen f; ERequest (Download url) a; EToken]))).
      rewrite !count_app, (stream_count is_open evs), (stream_count is_close evs) by
        (try assumption; intros []; simpl; congruence).
      reflexivity.
Qed.

(** *** Downloads that go through *)

Lemma bytes_written_app l1 l2 :
  bytes_written (l1 ++ l2) = bytes_written l1 + bytes_written l2.
Proof.
  induction l1 as [|e l1 IH]; simpl; [reflexivity|].
  destruct e; rewrite IH; lia.
Qed.

Lemma stores_app n1 b1 n2 b2 evs1 evs2 :
  stores n1 b1 evs1 -> stores n2 b2 evs2 ->
  stores (n2 + n1) (b2 + b1) (evs2 ++ evs1).
Proof.
  intros (O1 & B1 & C1 & Q1) (O2 & B2 & C2 & Q2). repeat split.
  - rewrite count_app. lia.
  - rewrite bytes_written_app. lia.
  - rewrite forallb_app, C1, C2. reflexivity.
  - apply quiet_app; assumption.
Qed.

Lemma read_loop_ok E f reads : forall old w,
  (forall n, write_fails E n = false) ->
  forallb good_read reads = true ->
  disk w !! f = Some old ->
  exists w' evs,
    read_loop E f reads w = Ok tt w' /\
    disk w' = <[f := old ++ concat (map chunk_data reads)]> (disk w) /\
    log w' = evs ++ log w /\
    stores 0 (length (concat (map chunk_data reads))) evs.
Proof.
  induction reads as [|r reads IH]; intros old w Hw Hgood Hold.
  - exists (emit (ERead chunk_size) w), [ERead chunk_size]. simpl.
    rewrite app_nil_r, insert_id by assumption. repeat split.
  - simpl in Hgood. apply andb_prop in Hgood as [Hr Hrest].
    destruct r as [[|b data]|]; try discriminate.
    cbn [read_loop]. unfold bind at 1, say. unfold bind at 1, out_write.
    rewrite Hw. cbn [emit disk log]. rewrite Hold. cbn [default].
    match goal with |- context [read_loop E f reads ?w1] =>
      destruct (IH (old ++ b :: data) w1 Hw Hrest) as (w' & evs & Hrun & Hd & Hl & Hst)
    end.
    { simpl. apply lookup_insert_eq. }
    exists w', (evs ++ [EWrite f (b :: data); ERead chunk_size]).
    split; [exact Hrun|]. split; [|split].
    + rewrite Hd. cbn [set_disk emit disk map chunk_data concat].
      rewrite insert_insert_eq, <- app_assoc. reflexivity.
    + rewrite Hl, <- app_assoc. reflexivity.
    + replace (length (concat (map chunk_data (Chunk (b :: data) :: reads))))
        with (length (concat (map chunk_data reads)) + length (b :: data))
        by (cbn [map chunk_data concat]; rewrite length_app; lia).
      apply (stores_app 0 (length (b :: data)) 0); [|exact Hst].
      split; [reflexivity|]. split; [simpl; lia|]. split; [|reflexivity].
      cbn [good_read] in Hr. cbn [forallb chunk_bounded].
      rewrite Hr, N.eqb_refl. reflexivity.
Qed.

Lemma download_file_ok E url f w :
  auth_ok E -> storage_ok E -> well_served E url = true ->
  exists w' evs,
    download_file E url f w = Ok tt w' /\
    disk w' = <[f := remote_body E url]> (disk w) /\
    log w' = evs ++ log w /\
    stores 1 (length (remote_body E url)) evs.
Proof.
  intros Ha [Hopen Hwrite] Hserved.
  unfold well_served in Hserved. unfold remote_body.
  destruct (download_reply E url) as [reads|] eqn:Hreply; [|discriminate].
  destruct (bearer_ok E w Ha) as (a & Hb).
  unfold download_file, bind, finally, say, open_wb.
  rewrite Hb, Hreply, Hopen.
  match goal with |- context [read_loop E f reads ?w1] =>
    destruct (read_loop_ok E f reads [] w1 Hwrite Hserved)
      as (w2 & evs & Hrun & Hd & Hl & Hst)
  end.
  { simpl. apply lookup_insert_eq. }
  rewrite Hrun.
  eexists. exists (ERelease (Download url) :: EClose f :: evs ++
                   [EOpen f; ERequest (Download url) a; EToken]).
  split; [reflexivity|]. split; [|split].
  - cbn [emit disk]. rewrite Hd. cbn [set_disk emit disk].
    rewrite insert_insert_eq. reflexivity.
  - cbn [emit log]. rewrite Hl. cbn [set_disk emit log]. simpl.
    rewrite <- app_assoc. reflexivity.
  - assert (H : stores (0 + (0 + 1))
                        (0 + (length (concat (map chunk_data reads)) + 0))
                        ([ERelease (Download url); EClose f] ++ evs ++
                         [EOpen f; ERequest (Download url) a; EToken])).
    { apply stores_app; [apply stores_app|]; [|exact Hst|]; repeat split. }
    rewrite Nat.add_0_r in H. exact H.
Qed.

Lemma download_all_ok E ds : forall w,
  auth_ok E -> storage_ok E ->
  (forall d, In d ds -> well_served E (PyStr (fst d)) = true) ->
  exists w' evs,
    download_all E (map descriptor_of ds) w = Ok tt w' /\
    disk w' = stored E ds (disk w) /\
    log w' = evs ++ log w /\
    stores (length ds)
           (list_sum (map (fun d => length (remote_body E (PyStr (fst d)))) ds))
           evs.
Proof.
  induction ds as [|d ds IH]; intros w Ha Hst Hserved.
  - exists w, []. repeat split.
  - destruct (download_file_ok E (PyStr (fst d)) (file_name d) w Ha Hst)
      as (w1 & evs1 & Hrun1 & Hd1 & Hl1 & Hs1).
    { apply Hserved. left. reflexivity. }
    destruct (IH w1 Ha Hst) as (w2 & evs2 & Hrun2 & Hd2 & Hl2 & Hs2).
    { intros d' Hd'. apply Hserved. right. exact Hd'. }
    exists w2, (evs2 ++ evs1). split; [|split; [|split]].
    + unfold download_all in *. cbn [map for_each]. unfold bind at 1.
      unfold bind at 1 2, lift, descriptor_of. cbn [subscript dict_get String.eqb Ascii.eqb Bool.eqb fst snd].
      cbn. unfold file_name in Hrun1. cbn in Hrun1. rewrite Hrun1. exact Hrun2.
    + rewrite Hd2, Hd1. reflexivity.
    + rewrite Hl2, Hl1, app_assoc. reflexivity.
    + destruct (stores_app _ _ _ _ _ _ Hs1 Hs2) as (O & B & C & Q).
      split; [rewrite O; simpl; lia|].
      split; [rewrite B; simpl; lia|]. split; assumption.
Qed.

(** *** The disk after a fetch *)

Lemma list_ascii_of_string_app s t :
  list_ascii_of_string (s +:+ t) = list_ascii_of_string s ++ list_ascii_of_string t.
Proof. induction s as [|c s IH]; simpl; [reflexivity | rewrite IH; reflexivity]. Qed.

Lemma append_inv_tail s1 s2 t : s1 +:+ t = s2 +:+ t -> s1 = s2.
Proof.
  intros H. apply (f_equal list_ascii_of_string) in H.
  rewrite !list_ascii_of_string_app in H. apply app_inv_tail in H.
  rewrite <- (string_of_list_ascii_of_string s1),
          <- (string_of_list_ascii_of_string s2), H.
  reflexivity.
Qed.

Lemma file_name_inj d1 d2 : file_name d1 = file_name d2 -> snd d1 = snd d2.
Proof. apply append_inv_tail. Qed.

Lemma stored_cons E d ds dsk :
  stored E (d :: ds) dsk =
  stored E ds (<[file_name d := remote_body E (PyStr (fst d))]> dsk).
Proof. reflexivity. Qed.

Lemma stored_other E ds : forall dsk f,
  (forall d, In d ds -> file_name d <> f) ->
  stored E ds dsk !! f = dsk !! f.
Proof.
  induction ds as [|d ds IH]; intros dsk f Hf; [reflexivity|].
  rewrite stored_cons, IH.
  - apply lookup_insert_ne, Hf. left. reflexivity.
  - intros d' Hd'. apply Hf. right. exact Hd'.
Qed.

Lemma names_apart d ds :
  ~ In (snd d) (map snd ds) -> forall d', In d' ds -> file_name d' <> file_name d.
Proof.
  intros Hnot d' Hd' Heq. apply Hnot. apply file_name_inj in Heq.
  rewrite <- Heq. apply in_map, Hd'.
Qed.

Lemma stored_lookup E ds : forall dsk d,
  List.NoDup (map snd ds) -> In d ds ->
  stored E ds dsk !! file_name d = Some (remote_body E (PyStr (fst d))).
Proof.
  induction ds as [|d0 ds IH]; intros dsk d Hnd Hin; [destruct Hin|].
  apply List.NoDup_cons_iff in Hnd as [Hnot Hnd].
  destruct Hin as [->|Hin].
  - rewrite stored_cons, stored_other by (apply names_apart, Hnot).
    apply lookup_insert_eq.
  - rewrite stored_cons. apply IH; assumption.
Qed.

Lemma bytes_on_disk_insert f content (dsk : gmap string (list byte)) :
  dsk !! f = None ->
  bytes_on_disk (<[f := content]> dsk) = length content + bytes_on_disk dsk.
Proof.
  intros Hf. unfold bytes_on_disk.
  rewrite map_fold_insert_L; [reflexivity | intros; lia | exact Hf].
Qed.

Lemma stored_size E ds : forall dsk,
  List.NoDup (map snd ds) ->
  (forall d, In d ds -> dsk !! file_name d = None) ->
  size (stored E ds dsk) = size dsk + length ds /\
  bytes_on_disk (stored E ds dsk) =
    bytes_on_disk dsk +
    list_sum (map (fun d => length (remote_body E (PyStr (fst d)))) ds).
Proof.
  induction ds as [|d ds IH]; intros dsk Hnd Hfresh.
  - simpl. split; lia.
  - apply List.NoDup_cons_iff in Hnd as [Hnot Hnd].
    rewrite stored_cons.
    destruct (IH (<[file_name d := remote_body E (PyStr (fst d))]> dsk) Hnd)
      as [Hsize Hbytes].
    { intros d' Hd'. rewrite lookup_insert_ne.
      - apply Hfresh. right. exact Hd'.
      - intros Heq. exact (names_apart d ds Hnot d' Hd' (eq_sym Heq)). }
    rewrite Hsize, Hbytes.
    rewrite map_size_insert_None, bytes_on_disk_insert
      by (apply Hfresh; left; reflexivity).
    simpl. split; lia.
Qed.

(** *** The events of a fetch *)

Lemma stream_of_cons f c cs :
  stream_of f (c :: cs) = ERead chunk_size :: EWrite f c :: stream_of f cs.
Proof. reflexivity. Qed.

Lemma stream_of_files f cs :
  List.filter is_file_event (stream_of f cs) = stream_of f cs.
Proof.
  induction cs as [|c cs IH]; [reflexivity|].
  rewrite stream_of_cons. cbn [List.filter is_file_event]. rewrite IH.
  reflexivity.
Qed.

Lemma stream_of_opens f cs : List.filter is_open (stream_of f cs) = [].
Proof.
  induction cs as [|c cs IH]; [reflexivity|].
  rewrite stream_of_cons. cbn [List.filter is_open]. exact IH.
Qed.

Lemma stream_of_bytes f cs :
  bytes_written (stream_of f cs) = length (concat cs).
Proof.
  induction cs as [|c cs IH]; [reflexivity|].
  rewrite stream_of_cons. cbn [bytes_written concat].
  rewrite IH, length_app. reflexivity.
Qed.

Lemma filter_within {A} (p q : A -> bool) l :
  (forall x, p x = true -> q x = true) ->
  List.filter p (List.filter q l) = List.filter p l.
Proof.
  intros Hpq. induction l as [|x l IH]; [reflexivity|]. simpl.
  destruct (p x) eqn:Hp.
  - rewrite (Hpq x Hp). simpl. rewrite Hp, IH. reflexivity.
  - destruct (q x); simpl; rewrite ?Hp; exact IH.
Qed.

Lemma file_events_opens E ds :
  List.filter is_open (flat_map (file_events E) ds) =
  map (fun d => EOpen (file_name d)) ds.
Proof.
  induction ds as [|d ds IH]; [reflexivity|].
  cbn [flat_map map]. rewrite List.filter_app, IH. unfold file_events.
  cbn [List.filter is_open]. rewrite List.filter_app, stream_of_opens.
  reflexivity.
Qed.

Lemma bytes_written_files t :
  bytes_written (List.filter is_file_event t) = bytes_written t.
Proof.
  induction t as [|e t IH]; [reflexivity|].
  destruct e; simpl; rewrite ?IH; reflexivity.
Qed.

Lemma bytes_written_rev t : bytes_written (rev t) = bytes_written t.
Proof.
  induction t as [|e t IH]; [reflexivity|].
  simpl. rewrite bytes_written_app, IH. destruct e; simpl; lia.
Qed.

Lemma remote_body_chunks E url :
  remote_body E url = concat (remote_chunks E url).
Proof.
  unfold remote_body, remote_chunks.
  destruct (download_reply E url); reflexivity.
Qed.

Lemma file_events_bytes E ds :
  bytes_written (flat_map (file_events E) ds) = remote_total E ds.
Proof.
  unfold remote_total. induction ds as [|d ds IH]; [reflexivity|].
  cbn [flat_map map]. rewrite bytes_written_app, IH. unfold file_events.
  cbn [bytes_written].
  rewrite bytes_written_app, stream_of_bytes, remote_body_chunks.
  simpl. lia.
Qed.

Lemma read_loop_fetch E f reads : forall old w,
  (forall n, write_fails E n = false) ->
  forallb some_read reads = true ->
  disk w !! f = Some old ->
  exists w',
    read_loop E f reads w = Ok tt w' /\
    disk w' = <[f := old ++ concat (map chunk_data reads)]> (disk w) /\
    log w' = rev (stream_of f (map chunk_data reads)) ++ log w.
Proof.
  induction reads as [|r reads IH]; intros old w Hw Hsome Hold.
  - exists (emit (ERead chunk_size) w). simpl.
    rewrite app_nil_r, insert_id by assumption. repeat split.
  - simpl in Hsome. apply andb_prop in Hsome as [Hr Hrest].
    destruct r as [[|b data]|]; try discriminate.
    cbn [read_loop]. unfold bind at 1, say. unfold bind at 1, out_write.
    rewrite Hw. cbn [emit disk log]. rewrite Hold. cbn [default].
    match goal with |- context [read_loop E f reads ?w1] =>
      destruct (IH (old ++ b :: data) w1 Hw Hrest) as (w' & Hrun & Hd & Hl)
    end.
    { simpl. apply lookup_insert_eq. }
    exists w'. split; [exact Hrun|]. split.
    + rewrite Hd. cbn [set_disk emit disk map chunk_data concat].
      rewrite insert_insert_eq, <- app_assoc. reflexivity.
    + rewrite Hl. cbn [map chunk_data]. rewrite stream_of_cons.
      cbn [rev set_disk emit log]. rewrite <- !app_assoc. reflexivity.
Qed.

Lemma download_file_fetch E url f w :
  auth_ok E -> storage_ok E -> served E url = true ->
  exists w' a,
    download_file E url f w = Ok tt w' /\
    disk w' = <[f := remote_body E url]> (disk w) /\
    log w' = rev ([EToken; ERequest (Download url) a; EOpen f] ++
                  stream_of f (remote_chunks E url) ++
                  [EClose f; ERelease (Download url)]) ++ log w.
Proof.
  intros Ha [Hopen Hwrite] Hserved.
  unfold served in Hserved. unfold remote_body, remote_chunks.
  destruct (download_reply E url) as [reads|] eqn:Hreply; [|discriminate].
  destruct (bearer_ok E w Ha) as (a & Hb).
  unfold download_file, bind, finally, say, open_wb.
  rewrite Hb, Hreply, Hopen.
  match goal with |- context [read_loop E f reads ?w1] =>
    destruct (read_loop_fetch E f reads [] w1 Hwrite Hserved)
      as (w2 & Hrun & Hd & Hl)
  end.
  { simpl. apply lookup_insert_eq. }
  rewrite Hrun. eexists. exists a.
  split; [reflexivity|]. split.
  - cbn [emit disk]. rewrite Hd. cbn [set_disk emit disk].
    rewrite insert_insert_eq. reflexivity.
  - cbn [emit log]. rewrite Hl. cbn [set_disk emit log].
    rewrite !rev_app_distr. cbn [rev app]. rewrite <- !app_assoc.
    reflexivity.
Qed.

Lemma download_all_fetch E ds : forall w,
  auth_ok E -> storage_ok E ->
  (forall d, In d ds -> served E (PyStr (fst d)) = true) ->
  exists w' t,
    download_all E (map descriptor_of ds) w = Ok tt w' /\
    disk w' = stored E ds (disk w) /\
    log w' = rev t ++ log w /\
    List.filter is_file_event t = flat_map (file_events E) ds.
Proof.
  induction ds as [|d ds IH]; intros w Ha Hst Hserved.
  - exists w, []. repeat split.
  - destruct (download_file_fetch E (PyStr (fst d)) (file_name d) w Ha Hst)
      as (w1 & a & Hrun1 & Hd1 & Hl1).
    { apply Hserved. left. reflexivity. }
    destruct (IH w1 Ha Hst) as (w2 & t2 & Hrun2 & Hd2 & Hl2 & Hf2).
    { intros d' Hd'. apply Hserved. right. exact Hd'. }
    exists w2.
    exists (([EToken; ERequest (Download (PyStr (fst d))) a; EOpen (file_name d)] ++
             stream_of (file_name d) (remote_chunks E (PyStr (fst d))) ++
             [EClose (file_name d); ERelease (Download (PyStr (fst d)))]) ++ t2).
    split; [|split; [|split]].
    + unfold download_all in *. cbn [map for_each]. unfold bind at 1.
      unfold bind at 1 2, lift, descriptor_of.
      cbn [subscript dict_get String.eqb Ascii.eqb Bool.eqb fst snd].
      cbn. unfold file_name in Hrun1. cbn in Hrun1. rewrite Hrun1. exact Hrun2.
    + rewrite Hd2, Hd1. reflexivity.
    + rewrite Hl2, Hl1, (rev_app_distr _ t2), <- app_assoc. reflexivity.
    + rewrite List.filter_app, Hf2. cbn [flat_map]. f_equal.
      cbn [app List.filter is_file_event]. unfold file_events. f_equal.
      rewrite List.filter_app, stream_of_files. reflexivity.
Qed.

Lemma stored_app E ds1 ds2 dsk :
  stored E (ds1 ++ ds2) dsk = stored E ds2 (stored E ds1 dsk).
Proof. apply fold_left_app. Qed.

(** The last descriptor of a name is the one whose body stays. *)
Lemma stored_last E ds1 d ds2 dsk :
  (forall d', In d' ds2 -> snd d' <> snd d) ->
  stored E (ds1 ++ d :: ds2) dsk !! file_name d =
  Some (remote_body E (PyStr (fst d))).
Proof.
  intros Hlater. rewrite stored_app, stored_cons, stored_other.
  - apply lookup_insert_eq.
  - intros d' Hd' Heq. apply (Hlater d' Hd'), file_name_inj, Heq.
Qed.

(** C8, as the script has it: when every download goes through, the fetch
    opens one file per descriptor, in order and under its name; it asks
    for each body in reads of 1 MiB and writes each chunk as it comes; it
    writes as many bytes as the remote bodies have; afterwards the disk
    holds, under each name, the body of the last descriptor of that name,
    and no other file.  When the names are pairwise distinct, these are
    as many files as descriptors and together as long as the bodies. *)
Theorem fetch_writes_each_file E ds :
  auth_ok E -> storage_ok E ->
  (forall d, In d ds -> served E (PyStr (fst d)) = true) ->
  exists w',
    download_all E (map descriptor_of ds) (start ∅) = Ok tt w' /\
    List.filter is_open (trace w') = map (fun d => EOpen (file_name d)) ds /\
    files_of w' = flat_map (file_events E) ds /\
    chunk_size = 1048576%N /\
    bytes_written (log w') = remote_total E ds /\
    disk w' = stored E ds ∅ /\
    (forall ds1 d ds2, ds = ds1 ++ d :: ds2 ->
       (forall d', In d' ds2 -> snd d' <> snd d) ->
       disk w' !! file_name d = Some (remote_body E (PyStr (fst d)))) /\
    (forall f, (forall d, In d ds -> file_name d <> f) ->
       disk w' !! f = None) /\
    (List.NoDup (map snd ds) ->
     (forall d, In d ds ->
        disk w' !! file_name d = Some (remote_body E (PyStr (fst d)))) /\
     writes_every_file E ds).
Proof.
  intros Ha Hst Hserved.
  destruct (download_all_fetch E ds (start ∅) Ha Hst Hserved)
    as (w' & t & Hrun & Hd & Hl & Hf).
  simpl in Hl. rewrite app_nil_r in Hl. simpl in Hd.
  assert (Ht : trace w' = t) by (unfold trace; rewrite Hl; apply rev_involutive).
  exists w'. split; [exact Hrun|].
  split.
  { rewrite Ht, <- (filter_within is_open is_file_event t), Hf.
    - apply file_events_opens.
    - intros []; simpl; congruence. }
  split; [unfold files_of; rewrite Ht; exact Hf|].
  split; [reflexivity|].
  split.
  { rewrite Hl, bytes_written_rev, <- bytes_written_files, Hf.
    apply file_events_bytes. }
  split; [exact Hd|].
  split.
  { intros ds1 d ds2 Hds Hlater. rewrite Hd, Hds. apply stored_last, Hlater. }
  split.
  { intros f Hfresh. rewrite Hd, stored_other by exact Hfresh.
    apply lookup_empty. }
  intros Hnd. split.
  - intros d Hin. rewrite Hd. apply stored_lookup; assumption.
  - exists w'. split; [exact Hrun|]. rewrite Hd.
    destruct (stored_size E ds ∅ Hnd) as [Hsize Hbytes].
    { intros d _. apply lookup_empty. }
    rewrite Hsize, Hbytes. rewrite map_size_empty.
    unfold bytes_on_disk. rewrite map_fold_empty. split; reflexivity.
Qed.

(** ** A completed job *)

Lemma running_status r s :
  status_of r = Some (PyStr s) ->
  String.eqb s "Completed" = false -> String.eqb s "Failed" = false ->
  still_running r = true.
Proof.
  intros Hs Hc Hf. unfold still_running. rewrite Hs. simpl.
  rewrite Hc, Hf. reflexivity.
Qed.

Lemma while_pending_stopped E fuel project l w :
  isPending l = false -> while_pending E fuel project l w = Some (Ok l w).
Proof. intros H. destruct fuel; simpl; rewrite H; reflexivity. Qed.

(** A run whose answer to query [n + 1] says [Completed]: what is left of
    it is the [Completed] branch and the response. *)
Lemma do_POST_at_completed E body d n v :
  auth_ok E -> submit_ok E -> body_ok body -> n < 20 ->
  (forall i, i < n -> still_running (status_reply E i) = true) ->
  status_reply E n = Body (Some v) ->
  subscript v "status" = inr (PyStr "Completed") ->
  exists pid a w,
    polled n (start d) w /\
    do_POST E body (start d) =
    match subscript v "outputFileDetails" with
    | inl e => Some (Raise e (asked pid a w))
    | inr details =>
        match py_iter details with
        | inl e => Some (Raise e (asked pid a w))
        | inr items =>
            match download_all E items (asked pid a w) with
            | Ok _ w3 =>
                Some (respond (succeeded (Nat.iter n bump initial_locals)) w3)
            | Raise e w3 => Some (Raise e w3)
            end
        end
    end.
Proof.
  intros Ha Hsub Hbody Hn Hrun Hv Hs.
  destruct (do_POST_running E body d n Ha Hsub Hbody) as
    (project & pid & w & Hid & Hp & Hdo);
    [unfold max_attempts; lia | assumption |].
  assert (Hq : queries w = n) by (destruct Hp as (Hq & _); exact Hq).
  rewrite <- Hq in Hv.
  destruct (loop_body_answered E project pid
              (Nat.iter n bump initial_locals) w v _ Ha Hid Hv Hs) as (a & Hb).
  cbn [py_eq_str String.eqb Ascii.eqb Bool.eqb andb] in Hb.
  exists pid, a, w. split; [exact Hp|].
  destruct (max_attempts - n) as [|fuel] eqn:Hfuel;
    [unfold max_attempts in Hfuel; lia|].
  cbn [while_pending] in Hdo. rewrite Hb in Hdo. rewrite iter_bump in Hdo at 1 2.
  cbn [isPending counter initial_locals andb] in Hdo.
  assert (Hlt : (0 + n <? max_attempts)%nat = true)
    by (apply Nat.ltb_lt; unfold max_attempts; lia).
  rewrite Hlt in Hdo. rewrite Hdo.
  destruct (subscript v "outputFileDetails") as [e|details]; [reflexivity|].
  destruct (py_iter details) as [e|items]; [reflexivity|].
  destruct (download_all E items (asked pid a w)) as [[] w3|e w3]; [|reflexivity].
  rewrite while_pending_stopped by reflexivity. reflexivity.
Qed.

(** The answer of a run that succeeded: the four response lines come
    last. *)
Lemma success_answer n w :
  response_of w = [] ->
  exists w',
    respond (succeeded (Nat.iter n bump initial_locals)) w = Ok tt w' /\
    queries w' = queries w /\ disk w' = disk w /\
    response_of w' = response_lines "Successfully saved a file." /\
    trace w' = trace w ++ response_lines "Successfully saved a file.".
Proof.
  intros Hr.
  assert (Hd : failureDetails (succeeded (Nat.iter n bump initial_locals)) = PyStr "")
    by (rewrite iter_bump; reflexivity).
  destruct (respond_spec _ w Hd) as (w' & Hrun & Hdisk & Hl).
  destruct (respond_world _ w w' Hd Hrun) as (Hq & _ & Hresp).
  exists w'. split; [exact Hrun|]. split; [exact Hq|]. split; [exact Hdisk|].
  split; [rewrite Hresp, Hr; reflexivity|].
  unfold trace. rewrite Hl, rev_app_distr, rev_involutive. reflexivity.
Qed.

(** C7, as the script has it: when the answers are [Pending],
    [InProgress], [Completed], the run issues exactly 3 status queries,
    however it ends.  When it returns, it has written the success
    response; when it raises, it has written nothing.  It returns when the
    [Completed] answer lists files that can all be fetched and stored; it
    raises when the [Completed] answer has no [outputFileDetails]. *)
Theorem completed_on_third_query E body d :
  auth_ok E -> submit_ok E -> body_ok body ->
  status_of (status_reply E 0) = Some (PyStr "Pending") ->
  status_of (status_reply E 1) = Some (PyStr "InProgress") ->
  status_of (status_reply E 2) = Some (PyStr "Completed") ->
  exists o,
    do_POST E body (start d) = Some o /\
    queries (world_of o) = 3 /\
    (returned o = true -> outcome_of (Some o) = Some Success) /\
    (returned o = false -> response_of (world_of o) = []) /\
    (forall ds, storage_ok E ->
       answers_completed (status_reply E 2) (map descriptor_of ds) ->
       (forall x, In x ds -> served E (PyStr (fst x)) = true) ->
       returned o = true) /\
    (forall v e, status_reply E 2 = Body (Some v) ->
       subscript v "outputFileDetails" = inl e ->
       exists w', o = Raise e w').
Proof.
  intros Ha Hsub Hbody H0 H1 H2.
  destruct (status_of_inv _ _ H2) as (v & Hv & Hs).
  destruct (do_POST_at_completed E body d 2 v Ha Hsub Hbody)
    as (pid & a & w & (Hq & _ & Hr & _) & Hdo); try assumption.
  { lia. }
  { intros i Hi. destruct i as [|[|i]]; [| |lia].
    - apply (running_status _ _ H0); reflexivity.
    - apply (running_status _ _ H1); reflexivity. }
  change (queries w = 2) in Hq. change (response_of w = []) in Hr.
  destruct (polled_asked pid a w) as (Hq1 & _ & Hr1 & _).
  rewrite Hq in Hq1. rewrite Hr in Hr1. simpl in Hq1.
  assert (Hsame : forall v', status_reply E 2 = Body (Some v') -> v' = v)
    by (intros v' Hv'; congruence).
  destruct (subscript v "outputFileDetails") as [e|details] eqn:Hdetails.
  { exists (Raise e (asked pid a w)). split; [exact Hdo|]. split; [exact Hq1|].
    split; [discriminate|]. split; [intros _; exact Hr1|]. split.
    - intros ds _ (v' & Hv' & _ & Hd') _. apply Hsame in Hv'. congruence.
    - intros v' e' Hv' He'. apply Hsame in Hv'. subst v'.
      rewrite Hdetails in He'. injection He' as <-. eexists. reflexivity. }
  destruct (py_iter details) as [e|items] eqn:Hitems.
  { exists (Raise e (asked pid a w)). split; [exact Hdo|]. split; [exact Hq1|].
    split; [discriminate|]. split; [intros _; exact Hr1|]. split.
    - intros ds _ (v' & Hv' & _ & Hd') _. apply Hsame in Hv'. subst v'.
      rewrite Hdetails in Hd'. injection Hd' as ->. discriminate Hitems.
    - intros v' e' Hv' He'. apply Hsame in Hv'. subst v'.
      rewrite Hdetails in He'. discriminate He'. }
  destruct (quietly_download_all E items (asked pid a w)) as (evs & Hl & Hquiet).
  pose proof (queries_quiet _ _ _ Hl Hquiet) as Hq3. rewrite Hq1 in Hq3.
  assert (Hr3 : response_of (world_of (download_all E items (asked pid a w))) = []).
  { unfold response_of, trace in *. rewrite rev_filter in *.
    rewrite Hl, List.filter_app, (quiet_count _ _ plain_not_response Hquiet).
    exact Hr1. }
  destruct (download_all E items (asked pid a w)) as [[] w3|e w3] eqn:Hfetch;
    cbn [world_of] in Hq3, Hr3.
  - destruct (success_answer 2 w3 Hr3) as (w' & Hrun' & Hq' & _ & Hr' & _).
    rewrite Hrun' in Hdo. exists (Ok tt w'). split; [exact Hdo|].
    split; [simpl; congruence|].
    split; [intros _; simpl; rewrite Hr'; reflexivity|].
    split; [discriminate|]. split; [intros; reflexivity|].
    intros v' e' Hv' He'. apply Hsame in Hv'. subst v'.
    rewrite Hdetails in He'. discriminate He'.
  - exists (Raise e w3). split; [exact Hdo|]. split; [exact Hq3|].
    split; [discriminate|]. split; [intros _; exact Hr3|]. split.
    + intros ds Hst (v' & Hv' & _ & Hd') Hserved. apply Hsame in Hv'. subst v'.
      rewrite Hdetails in Hd'. injection Hd' as ->.
      simpl in Hitems. injection Hitems as <-.
      destruct (download_all_fetch E ds (asked pid a w) Ha Hst Hserved)
        as (w4 & t & Hrun4 & _).
      rewrite Hrun4 in Hfetch. discriminate Hfetch.
    + intros v' e' Hv' He'. apply Hsame in Hv'. subst v'.
      rewrite Hdetails in He'. discriminate He'.
Qed.

(** ** Sample runs *)

Lemma script_env_auth_ok statuses files : auth_ok (script_env statuses files).
Proof. intros n. eexists. eexists. split; reflexivity. Qed.

Lemma script_env_submit_ok statuses files : submit_ok (script_env statuses files).
Proof. eexists. eexists. split; reflexivity. Qed.

Lemma script_env_storage_ok statuses files : storage_ok (script_env statuses files).
Proof. split; intros; reflexivity. Qed.

Lemma post_body_ok : body_ok post_body.
Proof. eexists. eexists. eexists. repeat split; reflexivity. Qed.

Lemma env_pending_running i : still_running (status_reply env_pending i) = true.
Proof. simpl. destruct i; reflexivity. Qed.

(** *** C2 *)

Lemma first_query_is_waited_for :
  ~ first_query_unwaited (do_POST env_completed post_body (start ∅)).
Proof. vm_compute. discriminate. Qed.

(** *** C3 *)

Lemma timeout_reason_is_empty :
  ~ timeout_is_told (do_POST env_pending post_body (start ∅)).
Proof.
  intros (reason & Ho & Hne). vm_compute in Ho. injection Ho as <-.
  apply Hne. reflexivity.
Qed.

Lemma exhausted_budget_witness :
  auth_ok env_pending /\ submit_ok env_pending /\ body_ok post_body /\
  (forall i, i < 20 -> still_running (status_reply env_pending i) = true) /\
  exists w',
    do_POST env_pending post_body (start ∅) = Some (Ok tt w') /\
    queries w' = 20 /\
    response_of w' = response_lines "Failed to render a file." /\
    outcome_of (do_POST env_pending post_body (start ∅)) = Some (Failure "").
Proof.
  split; [apply script_env_auth_ok|].
  split; [apply script_env_submit_ok|].
  split; [apply post_body_ok|].
  split; [intros i _; apply env_pending_running|].
  apply (exhausted_budget_answers_failed env_pending post_body ∅).
  - apply script_env_auth_ok.
  - apply script_env_submit_ok.
  - apply post_body_ok.
  - intros i _. apply env_pending_running.
Defined.

(** *** C4 *)

Lemma rejected_token_gives_no_outcome :
  ~ answers_failure (do_POST env_rejected post_body (start ∅)).
Proof. intros (reason & H). vm_compute in H. discriminate. Qed.

Lemma failed_submission_witness :
  submission_failed (submit env_rejected post_body (start ∅)) = true /\
  exists e w',
    do_POST env_rejected post_body (start ∅) = Some (Raise e w') /\
    queries w' = 0 /\ response_of w' = [].
Proof.
  split; [reflexivity|].
  apply (failed_submission_raises env_rejected post_body ∅). reflexivity.
Defined.

(** *** C6 *)


(** *** C7 *)

Lemma bare_completed_answer_raises :
  ~ completes_on_third_query env_completed_bare post_body ∅.
Proof.
  intros H. destruct (H eq_refl eq_refl eq_refl) as (w' & Hrun & _).
  vm_compute in Hrun. discriminate.
Qed.

Lemma completed_on_third_query_witness :
  auth_ok env_completed /\ submit_ok env_completed /\ body_ok post_body /\
  status_of (status_reply env_completed 0) = Some (PyStr "Pending") /\
  status_of (status_reply env_completed 1) = Some (PyStr "InProgress") /\
  status_of (status_reply env_completed 2) = Some (PyStr "Completed") /\
  exists w',
    do_POST env_completed post_body (start ∅) = Some (Ok tt w') /\
    queries w' = 3 /\
    outcome_of (do_POST env_completed post_body (start ∅)) = Some Success.
Proof.
  split; [apply script_env_auth_ok|].
  split; [apply script_env_submit_ok|].
  split; [apply post_body_ok|].
  split; [reflexivity|]. split; [reflexivity|]. split; [reflexivity|].
  destruct (completed_on_third_query env_completed post_body ∅
              (script_env_auth_ok _ _) (script_env_submit_ok _ _) post_body_ok
              eq_refl eq_refl eq_refl)
    as (o & Ho & Hq & Hsuccess & _ & Hreturns & _).
  assert (Hret : returned o = true).
  { apply (Hreturns [("u1", "a")]).
    - apply script_env_storage_ok.
    - eexists. repeat split; reflexivity.
    - intros x [<-|[]]. reflexivity. }
  destruct o as [[] w'|e w']; [|discriminate Hret].
  exists w'. split; [exact Ho|]. split; [exact Hq|].
  rewrite Ho. apply Hsuccess. reflexivity.
Defined.

(** *** C8 *)

Lemma same_name_leaves_one_file :
  ~ writes_every_file env_completed [("u1", "a"); ("u2", "a")].
Proof.
  intros (w' & Hrun & Hsize & _). vm_compute in Hrun. injection Hrun as <-.
  vm_compute in Hsize. discriminate.
Qed.

Lemma fetch_writes_each_file_witness :
  auth_ok env_completed /\ storage_ok env_completed /\
  (forall d, In d [("u1", "a"); ("u2", "a")] ->
             served env_completed (PyStr (fst d)) = true) /\
  exists w',
    download_all env_completed (map descriptor_of [("u1", "a"); ("u2", "a")])
                 (start ∅) = Ok tt w' /\
    List.filter is_open (trace w') = [EOpen "a.pdf"; EOpen "a.pdf"] /\
    bytes_written (log w') = 4 /\
    disk w' !! "a.pdf" = Some ["y"%byte; "z"%byte; "!"%byte] /\
    disk w' !! "b.pdf" = None.
Proof.
  assert (Hs : forall d, In d [("u1", "a"); ("u2", "a")] ->
                         served env_completed (PyStr (fst d)) = true).
  { intros d [<-|[<-|[]]]; reflexivity. }
  split; [apply script_env_auth_ok|].
  split; [apply script_env_storage_ok|]. split; [exact Hs|].
  destruct (fetch_writes_each_file env_completed [("u1", "a"); ("u2", "a")]
              (script_env_auth_ok _ _) (script_env_storage_ok _ _) Hs)
    as (w' & Hrun & Hopen & _ & _ & Hbytes & _ & Hlast & Hnone & _).
  exists w'. split; [exact Hrun|]. split; [exact Hopen|].
  split; [exact Hbytes|]. split.
  - apply (Hlast [("u1", "a")] ("u2", "a") []); [reflexivity|].
    intros d' [].
  - apply Hnone. intros d [<-|[<-|[]]]; discriminate.
Defined.

(** *** C9 *)

Lemma failed_write_keeps_connection :
  ~ releases_connection env_disk_full (PyStr "u1") "a.pdf" (start ∅).
Proof.
  intros H. specialize (H eq_refl ltac:(discriminate)).
  vm_compute in H. discriminate.
Qed.

(** *** C10 *)


(** * More about the script *)

(** ** Frames *)

Section Frame.

Variables Rok Rr : world -> world -> Prop.

Hypothesis Rok_refl : forall w, Rok w w.
Hypothesis Rr_refl : forall w, Rr w w.
Hypothesis Rok_trans : forall w1 w2 w3, Rok w1 w2 -> Rok w2 w3 -> Rok w1 w3.
Hypothesis Rr_after : forall w1 w2 w3, Rok w1 w2 -> Rr w2 w3 -> Rr w1 w3.
Hypothesis Rr_before : forall w1 w2 w3, Rr w1 w2 -> Rok w2 w3 -> Rr w1 w3.

Lemma framed_ret {A} (a : A) : framed Rok Rr (ret a).
Proof. intros w. apply Rok_refl. Qed.

Lemma framed_raise {A} (e : exn) : framed Rok Rr (@raise A e).
Proof. intros w. apply Rr_refl. Qed.

Lemma framed_lift {A} (r : exn + A) : framed Rok Rr (lift r).
Proof. destruct r; [apply framed_raise | apply framed_ret]. Qed.

Lemma framed_json_loads_data data : framed Rok Rr (json_loads_data data).
Proof. destruct data; [apply framed_ret | apply framed_raise]. Qed.

Lemma framed_say e : (forall w, Rok w (emit e w)) -> framed Rok Rr (say e).
Proof. intros He w. apply He. Qed.

Lemma framed_bind {A B} (m : M A) (k : A -> M B) :
  framed Rok Rr m -> (forall a, framed Rok Rr (k a)) -> framed Rok Rr (bind m k).
Proof.
  intros Hm Hk w. unfold bind. specialize (Hm w).
  destruct (m w) as [a w1|e w1]; [|exact Hm].
  specialize (Hk a w1). simpl in Hm.
  destruct (k a w1) as [b w2|e w2]; simpl in *.
  - eapply Rok_trans; eassumption.
  - eapply Rr_after; eassumption.
Qed.

Lemma framed_finally_say {A} (m : M A) e :
  framed Rok Rr m -> (forall w, Rok w (emit e w)) ->
  framed Rok Rr (finally m (say e)).
Proof.
  intros Hm He w. unfold finally, say. specialize (Hm w).
  destruct (m w) as [a w1|x w1]; simpl in *.
  - eapply Rok_trans; [exact Hm | apply He].
  - eapply Rr_before; [exact Hm | apply He].
Qed.

Lemma framed_for_each {A} (xs : list A) (body : A -> M unit) :
  (forall x, framed Rok Rr (body x)) -> framed Rok Rr (for_each xs body).
Proof.
  intros Hb. induction xs as [|x xs IH]; simpl.
  - apply framed_ret.
  - apply framed_bind; [apply Hb | intros _; exact IH].
Qed.

Variable E : env.

Hypothesis H_sleep : forall w, Rok w (emit (ESleep interval) w).
Hypothesis H_check : forall pid, framed Rok Rr (check_project_results E pid).
Hypothesis H_download : forall url name,
  framed Rok Rr (download_file E url (py_str E name +:+ ".pdf")).

Lemma framed_download_all items : framed Rok Rr (download_all E items).
Proof.
  unfold download_all. apply framed_for_each. intros item.
  apply framed_bind; [apply framed_lift | intros url].
  apply framed_bind; [apply framed_lift | intros name].
  apply H_download.
Qed.

Lemma framed_loop_body project l : framed Rok Rr (loop_body E project l).
Proof.
  unfold loop_body.
  apply framed_bind; [apply framed_say, H_sleep | intros _].
  apply framed_bind; [apply framed_lift | intros pid].
  apply framed_bind; [apply H_check | intros results].
  apply framed_bind; [apply framed_lift | intros status].
  apply framed_bind; [|intros l'; apply framed_ret].
  destruct (py_eq_str status "Completed").
  - apply framed_bind; [apply framed_lift | intros details].
    apply framed_bind; [apply framed_lift | intros items].
    apply framed_bind; [apply framed_download_all | intros _; apply framed_ret].
  - destruct (py_eq_str status "Failed"); [|apply framed_ret].
    apply framed_bind; [apply framed_lift | intros details; apply framed_ret].
Qed.

Lemma ends_while project fuel : forall l w o,
  while_pending E fuel project l w = Some o -> ends Rok Rr w o.
Proof.
  induction fuel as [|fuel IH]; intros l w o; simpl;
    destruct (isPending l && (counter l <? max_attempts)%nat);
    try discriminate; try (intros [= <-]; apply Rok_refl).
  pose proof (framed_loop_body project l w) as Hb.
  destruct (loop_body E project l w) as [l' w'|e w']; simpl in Hb.
  - intros Ho. specialize (IH l' w' o Ho).
    destruct o as [l2 w2|e w2]; simpl in *.
    + eapply Rok_trans; eassumption.
    + eapply Rr_after; eassumption.
  - intros [= <-]. exact Hb.
Qed.

Hypothesis H_line : forall e w, is_response_line e = true -> Rok w (emit e w).

Lemma framed_respond l : framed Rok Rr (respond l).
Proof.
  unfold respond. destruct (isSuccess l);
    repeat (apply framed_bind;
            [first [apply framed_say; intros w; apply H_line; reflexivity
                   | apply framed_lift]
            | intros ?]);
    apply framed_say; intros w; apply H_line; reflexivity.
Qed.

Hypothesis H_create : forall s u f c r,
  framed Rok Rr (create_project E s u f c r).

Lemma framed_submit body : framed Rok Rr (submit E body).
Proof.
  unfold submit.
  repeat (apply framed_bind;
          [first [apply framed_json_loads_data | apply framed_lift] | intros ?]).
  apply H_create.
Qed.

Lemma ends_do_POST fuel body w o :
  do_POST_fuel E fuel body w = Some o -> ends Rok Rr w o.
Proof.
  unfold do_POST_fuel. pose proof (framed_submit body w) as Hs.
  destruct (submit E body w) as [project w1|e w1]; simpl in Hs.
  2:{ intros [= <-]. exact Hs. }
  destruct (while_pending E fuel project initial_locals w1) as [[l w2|e w2]|] eqn:Hw;
    [| |discriminate].
  - apply ends_while in Hw. simpl in Hw.
    pose proof (framed_respond l w2) as Hr. intros [= <-].
    destruct (respond l w2) as [[] w3|e w3]; simpl in *.
    + eapply Rok_trans; [|exact Hr]. eapply Rok_trans; eassumption.
    + eapply Rr_after; [|exact Hr]. eapply Rok_trans; eassumption.
  - apply ends_while in Hw. simpl in Hw. intros [= <-].
    eapply Rr_after; eassumption.
Qed.

End Frame.

(** ** Files left alone *)

Lemma same_file_refl g w : same_file g w w.
Proof. reflexivity. Qed.

Lemma same_file_trans g w1 w2 w3 :
  same_file g w1 w2 -> same_file g w2 w3 -> same_file g w1 w3.
Proof. unfold same_file. congruence. Qed.

Lemma bearer_disk E w : disk (world_of (bearer E w)) = disk w.
Proof.
  unfold bearer, get_access_token, bind, client_request, json_loads_data, lift.
  destruct (token_reply E _) as [|[v|]]; simpl; try reflexivity.
  destruct (subscript v "access_token"); reflexivity.
Qed.

Lemma framed_bearer_disk g E : framed (same_file g) (same_file g) (bearer E).
Proof.
  intros w. pose proof (bearer_disk E w) as H.
  destruct (bearer E w); simpl in *; unfold same_file; rewrite H; reflexivity.
Qed.

Lemma framed_check_disk g E pid :
  framed (same_file g) (same_file g) (check_project_results E pid).
Proof.
  unfold check_project_results.
  apply framed_bind; try apply same_file_trans; [apply framed_bearer_disk|].
  intros a w. unfold bind, client_request, json_loads_data, say, ret, raise.
  destruct (status_reply E (queries w)) as [|[v|]]; reflexivity.
Qed.

Lemma framed_create_disk g E s u f c r :
  framed (same_file g) (same_file g) (create_project E s u f c r).
Proof.
  unfold create_project.
  apply framed_bind; try apply same_file_trans; [apply framed_bearer_disk|].
  intros a w. unfold bind, client_request, json_loads_data, say, ret, raise.
  destruct (submit_reply E) as [|[v|]]; reflexivity.
Qed.

Lemma read_loop_disk E f g reads : g <> f -> forall w,
  disk (world_of (read_loop E f reads w)) !! g = disk w !! g.
Proof.
  intros Hg. induction reads as [|r reads IH]; intros w; [reflexivity|].
  destruct r as [[|b data]|]; try reflexivity.
  cbn [read_loop]. unfold bind at 1, say. unfold bind, out_write.
  destruct (write_fails E _); [reflexivity|].
  rewrite IH. cbn [emit set_disk disk].
  apply lookup_insert_ne. congruence.
Qed.

Lemma framed_download_disk g E url f :
  g <> f -> framed (same_file g) (same_file g) (download_file E url f).
Proof.
  intros Hg. unfold download_file.
  apply framed_bind; try apply same_file_trans; [apply framed_bearer_disk|].
  intros a.
  apply framed_bind; try apply same_file_trans;
    [apply framed_say; reflexivity | intros _].
  destruct (download_reply E url) as [reads|];
    [|apply framed_raise; apply same_file_refl].
  apply framed_bind; try apply same_file_trans.
  { intros w. unfold open_wb. destruct (open_fails E f); simpl;
      [reflexivity|]. unfold same_file. simpl.
    apply lookup_insert_ne. congruence. }
  intros _.
  apply framed_bind; try apply same_file_trans;
    [|intros _; apply framed_say; reflexivity].
  apply framed_finally_say; try apply same_file_trans; [|reflexivity].
  intros w. pose proof (read_loop_disk E f g reads Hg w) as H.
  destruct (read_loop E f reads w); exact H.
Qed.

(** X1: [download_file] writes to [filename] and to no other file, however
    the call ends. *)
Theorem download_file_touches_one_file E url f w g :
  g <> f ->
  disk (world_of (download_file E url f w)) !! g = disk w !! g.
Proof.
  intros Hg. pose proof (framed_download_disk g E url f Hg w) as H.
  destruct (download_file E url f w); exact H.
Qed.

Lemma download_file_touches_one_file_witness :
  "b.pdf" <> "a.pdf" /\
  disk (world_of (download_file env_completed (PyStr "u1") "a.pdf"
                    (start {["b.pdf" := ["k"%byte]]}))) !! "b.pdf" =
  Some ["k"%byte].
Proof.
  split; [discriminate|].
  rewrite (download_file_touches_one_file env_completed (PyStr "u1") "a.pdf"
             (start {["b.pdf" := ["k"%byte]]}) "b.pdf"); [|discriminate].
  reflexivity.
Defined.

(** X2: a run of the handler changes no file but those named
    [<something>.pdf]. *)
Theorem do_POST_touches_pdf_only E body d g o :
  do_POST E body (start d) = Some o ->
  (forall s, g <> s +:+ ".pdf") ->
  disk (world_of o) !! g = d !! g.
Proof.
  intros Ho Hg.
  pose proof (ends_do_POST (same_file g) (same_file g)
                (same_file_refl g) (same_file_refl g)
                (same_file_trans g) (same_file_trans g) E
                (fun w => eq_refl)
                (framed_check_disk g E)
                (fun url name => framed_download_disk g E url _ (Hg (py_str E name)))
                (fun e w _ => eq_refl)
                (framed_create_disk g E)
                max_attempts body (start d) o Ho) as H.
  destruct o; exact H.
Qed.

Lemma do_POST_touches_pdf_only_witness :
  exists o,
    do_POST env_completed post_body (start {["notes" := ["k"%byte]]}) = Some o /\
    (forall s, "notes" <> s +:+ ".pdf") /\
    disk (world_of o) !! "notes" = Some ["k"%byte].
Proof.
  assert (Hg : forall s, "notes" <> s +:+ ".pdf").
  { intros s. do 6 (destruct s as [|? s]; [discriminate|]). discriminate. }
  eexists. split; [vm_compute; reflexivity|]. split; [exact Hg|].
  erewrite (do_POST_touches_pdf_only env_completed post_body
              {["notes" := ["k"%byte]]} "notes");
    [reflexivity | vm_compute; reflexivity | exact Hg].
Defined.

(** ** The events of the API helpers *)

Lemma adds_refl (P : list event -> Prop) w : P [] -> adds P w w.
Proof. intros H. exists []. split; [reflexivity | exact H]. Qed.

Lemma adds_trans (P1 P2 P3 : list event -> Prop) w1 w2 w3 :
  (forall e1 e2, P1 e1 -> P2 e2 -> P3 (e2 ++ e1)) ->
  adds P1 w1 w2 -> adds P2 w2 w3 -> adds P3 w1 w3.
Proof.
  intros Happ (e1 & L1 & H1) (e2 & L2 & H2). exists (e2 ++ e1).
  split; [rewrite L2, L1, app_assoc; reflexivity | apply Happ; assumption].
Qed.

Lemma count_cons p e l :
  count p (e :: l) = (if p e then 1 else 0) + count p l.
Proof. unfold count. simpl. destruct (p e); reflexivity. Qed.

Lemma check_project_results_log E pid w :
  match check_project_results E pid w with
  | Ok _ w' =>
      exists a, log w' =
                [ERelease (Status pid); ERequest (Status pid) a; EToken] ++ log w
  | Raise _ w' =>
      log w' = [EToken] ++ log w \/
      exists a, log w' = [ERequest (Status pid) a; EToken] ++ log w
  end.
Proof.
  unfold check_project_results, bind at 1.
  pose proof (bearer_log E w) as Hb.
  destruct (bearer E w) as [a w1|e w1]; simpl in Hb; [|left; exact Hb].
  unfold bind, client_request, json_loads_data, say, ret, raise.
  destruct (status_reply E (queries w1)) as [|[v|]]; simpl; rewrite Hb.
  - right. exists a. reflexivity.
  - exists a. reflexivity.
  - right. exists a. reflexivity.
Qed.

Lemma create_project_log E s u f c r w :
  match create_project E s u f c r w with
  | Ok _ w' =>
      exists payload a,
        log w' = [ERelease (Submit payload); ERequest (Submit payload) a; EToken]
                 ++ log w
  | Raise _ w' =>
      log w' = [EToken] ++ log w \/
      exists payload a, log w' = [ERequest (Submit payload) a; EToken] ++ log w
  end.
Proof.
  unfold create_project, bind at 1.
  pose proof (bearer_log E w) as Hb.
  destruct (bearer E w) as [a w1|e w1]; simpl in Hb; [|left; exact Hb].
  unfold bind, client_request, json_loads_data, say, ret, raise.
  destruct (submit_reply E) as [|[v|]]; simpl; rewrite Hb.
  - right. eexists. exists a. reflexivity.
  - eexists. exists a. reflexivity.
  - right. eexists. exists a. reflexivity.
Qed.

Lemma download_file_log E url f w :
  exists evs, forallb is_stream evs = true /\
    match download_file E url f w with
    | Ok _ w' =>
        exists a, log w' =
          (ERelease (Download url) :: EClose f :: evs ++
           [EOpen f; ERequest (Download url) a; EToken]) ++ log w
    | Raise _ w' =>
        log w' = [EToken] ++ log w \/
        (exists a, log w' = [ERequest (Download url) a; EToken] ++ log w) \/
        (exists a, log w' =
           (EClose f :: evs ++ [EOpen f; ERequest (Download url) a; EToken])
           ++ log w)
    end.
Proof.
  unfold download_file, bind at 1.
  pose proof (bearer_log E w) as Hb.
  destruct (bearer E w) as [a w1|e w1]; simpl in Hb.
  2:{ exists []. split; [reflexivity|]. left. exact Hb. }
  unfold bind at 1, say.
  destruct (download_reply E url) as [reads|].
  2:{ exists []. split; [reflexivity|]. right. left. exists a.
      simpl. rewrite Hb. reflexivity. }
  unfold bind at 1, open_wb.
  destruct (open_fails E f).
  { exists []. split; [reflexivity|]. right. left. exists a.
    simpl. rewrite Hb. reflexivity. }
  unfold bind at 1, finally.
  match goal with |- context [read_loop E f reads ?w2] =>
    destruct (read_loop_stream E f reads w2) as (evs & Hl & Hs);
    destruct (read_loop E f reads w2) as [[] w3|e w3]
  end; simpl in Hl; exists evs; (split; [exact Hs|]); simpl.
  - exists a. rewrite Hl, Hb, <- app_assoc. reflexivity.
  - right. right. exists a. rewrite Hl, Hb, <- app_assoc. reflexivity.
Qed.

Lemma stream_lacks (p : event -> bool) evs :
  (forall e, is_stream e = true -> p e = false) ->
  forallb is_stream evs = true -> count p evs = 0.
Proof. apply stream_count. Qed.

Ltac count_events Hs :=
  repeat (rewrite count_app || rewrite count_cons);
  rewrite ?(stream_lacks is_token _ ltac:(intros []; simpl; congruence) Hs),
          ?(stream_lacks is_request _ ltac:(intros []; simpl; congruence) Hs),
          ?(stream_lacks is_submit _ ltac:(intros []; simpl; congruence) Hs);
  simpl; unfold count; simpl; try lia.

(** ** One token for each request *)

Lemma count_rev p l : count p (rev l) = count p l.
Proof. unfold count. rewrite rev_filter, length_rev. reflexivity. Qed.

Lemma bearer_spec E w :
  match token_of E (count is_token (log w)) with
  | Some token =>
      bearer E w = Ok ("Bearer " +:+ py_str E token) (emit EToken w)
  | None => exists e, bearer E w = Raise e (emit EToken w)
  end.
Proof.
  unfold token_of, bearer, get_access_token, bind, client_request,
    json_loads_data, lift, ret, raise.
  destruct (token_reply E _) as [|[v|]]; simpl; try (eexists; reflexivity).
  destruct (subscript v "access_token"); simpl; [eexists|]; reflexivity.
Qed.

(** Events that are neither token requests nor API requests are passed
    over. *)
Lemma own_tokens_plain E rest : forall n,
  lacks is_token rest -> lacks is_request rest -> own_tokens E n rest = true.
Proof.
  unfold lacks. induction rest as [|e rest IH]; intros n Ht Hr; [reflexivity|].
  rewrite count_cons in Ht, Hr.
  destruct e; simpl in Ht, Hr; try discriminate; apply IH; assumption.
Qed.

Lemma own_tokens_call E n token ep rest :
  token_of E n = Some token ->
  lacks is_token rest -> lacks is_request rest ->
  own_tokens E n
    (EToken :: ERequest ep ("Bearer " +:+ py_str E token) :: rest) = true.
Proof.
  intros Htok Ht Hr. cbn [own_tokens]. rewrite Htok, String.eqb_refl.
  apply own_tokens_plain; assumption.
Qed.

(** A trace in which no token is owed can be followed by another. *)
Lemma own_tokens_app E t2 : forall k t1 n,
  length t1 <= k -> balanced t1 ->
  own_tokens E n t1 = true ->
  own_tokens E (count is_token t1 + n) t2 = true ->
  own_tokens E n (t1 ++ t2) = true.
Proof.
  unfold balanced.
  induction k as [|k IH]; intros t1 n Hk Hbal H1 H2.
  - destruct t1; [exact H2 | simpl in Hk; lia].
  - destruct t1 as [|e t1]; [exact H2|].
    simpl in Hk. rewrite !count_cons in Hbal. rewrite count_cons in H2.
    destruct e;
      try (cbn [app own_tokens]; cbn [own_tokens] in H1;
           simpl in Hbal, H2; apply IH; [lia | assumption ..]).
    + cbn [own_tokens] in H1. cbn [app own_tokens].
      destruct (token_of E n) as [token|] eqn:Htok.
      * destruct t1 as [|e' t1]; [discriminate|].
        destruct e'; try discriminate.
        apply andb_prop in H1 as [Ha H1]. cbn [app]. rewrite Ha. cbn [andb].
        simpl in Hk. rewrite !count_cons in Hbal. rewrite count_cons in H2.
        simpl in Hbal, H2.
        apply IH; [lia | lia | exact H1|].
        replace (count is_token t1 + S n) with (S (count is_token t1 + n))
          by lia.
        exact H2.
      * destruct t1 as [|e' t1]; [|discriminate].
        unfold count in Hbal. simpl in Hbal. lia.
    + discriminate H1.
Qed.

Lemma kept_refl E w : kept E w w.
Proof. exists []. repeat split. Qed.

Lemma cut_refl E w : cut E w w.
Proof. exists []. split; [reflexivity|]. split; [|reflexivity].
  unfold owing, count. simpl. lia.
Qed.

Lemma kept_trans E w1 w2 w3 : kept E w1 w2 -> kept E w2 w3 -> kept E w1 w3.
Proof.
  intros (t1 & L1 & B1 & O1) (t2 & L2 & B2 & O2). exists (t1 ++ t2).
  split; [rewrite L2, L1, rev_app_distr, app_assoc; reflexivity|].
  split; [unfold balanced in *; rewrite !count_app; lia|].
  apply (own_tokens_app E t2 (length t1)); [lia | assumption ..|].
  rewrite L1, count_app, count_rev in O2. exact O2.
Qed.

Lemma cut_after E w1 w2 w3 : kept E w1 w2 -> cut E w2 w3 -> cut E w1 w3.
Proof.
  intros (t1 & L1 & B1 & O1) (t2 & L2 & B2 & O2). exists (t1 ++ t2).
  split; [rewrite L2, L1, rev_app_distr, app_assoc; reflexivity|].
  split; [unfold balanced, owing in *; rewrite !count_app; lia|].
  apply (own_tokens_app E t2 (length t1)); [lia | assumption ..|].
  rewrite L1, count_app, count_rev in O2. exact O2.
Qed.

Lemma kept_plain E e w :
  is_token e = false -> is_request e = false -> kept E w (emit e w).
Proof.
  intros Ht Hr. exists [e]. split; [reflexivity|]. split.
  - unfold balanced. rewrite !count_cons, Ht, Hr. reflexivity.
  - apply own_tokens_plain; unfold lacks; rewrite count_cons, ?Ht, ?Hr;
      reflexivity.
Qed.

(** A helper that asks for a token, sends its request with that token
    and makes no other token or API request. *)
Lemma call_framed E {A} (m : M A) :
  (forall w,
     match token_of E (count is_token (log w)) with
     | Some token =>
         exists ep rest,
           log (world_of (m w)) =
             rest ++ ERequest ep ("Bearer " +:+ py_str E token) :: EToken :: log w /\
           lacks is_token rest /\ lacks is_request rest
     | None => returned (m w) = false /\ log (world_of (m w)) = EToken :: log w
     end) ->
  framed (kept E) (cut E) m.
Proof.
  intros H w. specialize (H w).
  destruct (token_of E (count is_token (log w))) as [token|] eqn:Htok.
  - destruct H as (ep & rest & Hl & Ht & Hr).
    assert (Ht' : lacks is_token (rev rest))
      by (unfold lacks; rewrite count_rev; exact Ht).
    assert (Hr' : lacks is_request (rev rest))
      by (unfold lacks; rewrite count_rev; exact Hr).
    assert (Hk : kept E w (world_of (m w))).
    { exists (EToken :: ERequest ep ("Bearer " +:+ py_str E token) :: rev rest).
      split; [|split].
      - rewrite Hl. cbn [rev]. rewrite rev_involutive, <- !app_assoc.
        reflexivity.
      - unfold balanced, lacks in *. rewrite !count_cons, Ht', Hr'.
        reflexivity.
      - apply own_tokens_call; assumption. }
    destruct (m w) as [a w'|e w']; [exact Hk|].
    destruct Hk as (t & L & B & O). exists t. split; [exact L|].
    split; [unfold balanced, owing in *; lia | exact O].
  - destruct H as (Hret & Hl).
    destruct (m w) as [a w'|e w']; [discriminate Hret|].
    exists [EToken]. split; [exact Hl|]. split.
    + unfold owing, count. simpl. lia.
    + cbn [own_tokens]. rewrite Htok. reflexivity.
Qed.

Lemma own_check E pid :
  framed (kept E) (cut E) (check_project_results E pid).
Proof.
  apply call_framed. intros w. pose proof (bearer_spec E w) as Hb.
  unfold check_project_results, bind at 1.
  destruct (token_of E (count is_token (log w))) as [token|].
  - rewrite Hb. unfold bind, client_request, json_loads_data, say, ret, raise.
    destruct (status_reply E _) as [|[v|]]; cbn [world_of emit log].
    + exists (Status pid), []. repeat split.
    + exists (Status pid), [ERelease (Status pid)]. repeat split.
    + exists (Status pid), []. repeat split.
  - destruct Hb as (e & Hb). unfold bind. rewrite Hb. split; reflexivity.
Qed.

Lemma own_create E s u f c r :
  framed (kept E) (cut E) (create_project E s u f c r).
Proof.
  apply call_framed. intros w. pose proof (bearer_spec E w) as Hb.
  unfold create_project, bind at 1.
  destruct (token_of E (count is_token (log w))) as [token|].
  - rewrite Hb. unfold bind, client_request, json_loads_data, say, ret, raise.
    destruct (submit_reply E) as [|[v|]]; cbn [world_of emit log].
    + eexists (Submit _), []. repeat split.
    + eexists (Submit _), [ERelease (Submit _)]. repeat split.
    + eexists (Submit _), []. repeat split.
  - destruct Hb as (e & Hb). unfold bind. rewrite Hb. split; reflexivity.
Qed.

Lemma own_download E url f :
  framed (kept E) (cut E) (download_file E url f).
Proof.
  apply call_framed. intros w. pose proof (bearer_spec E w) as Hb.
  unfold download_file, bind at 1.
  destruct (token_of E (count is_token (log w))) as [token|].
  2:{ destruct Hb as (e & Hb). unfold bind. rewrite Hb. split; reflexivity. }
  rewrite Hb. unfold bind at 1, say.
  destruct (download_reply E url) as [reads|].
  2:{ exists (Download url), []. repeat split. }
  unfold bind at 1, open_wb.
  destruct (open_fails E f).
  { exists (Download url), []. repeat split. }
  unfold bind at 1, finally.
  match goal with |- context [read_loop E f reads ?w2] =>
    destruct (read_loop_stream E f reads w2) as (evs & Hl & Hs);
    destruct (read_loop E f reads w2) as [[] w3|e w3]
  end; cbn [world_of] in Hl; cbn [say emit world_of log]; rewrite Hl;
    cbn [set_disk emit log].
  - exists (Download url),
      (ERelease (Download url) :: EClose f :: evs ++ [EOpen f]).
    split; [cbn [app]; rewrite <- app_assoc; reflexivity|].
    split; unfold lacks; count_events Hs.
  - exists (Download url), (EClose f :: evs ++ [EOpen f]).
    split; [cbn [app]; rewrite <- app_assoc; reflexivity|].
    split; unfold lacks; count_events Hs.
Qed.

(** X3: every render, status and download request of a run comes right
    after a token request of its own and carries [Bearer] and the token
    which that request handed out; a token request that hands out no
    token is the last event of the run.  So no token is kept from one
    call to the next: a run that returns has made as many token requests
    as API requests, a run that raises as many or one more. *)
Theorem every_request_has_its_token E body d :
  exists o,
    do_POST E body (start d) = Some o /\
    own_tokens E 0 (trace (world_of o)) = true /\
    count is_request (log (world_of o)) <= count is_token (log (world_of o))
      <= S (count is_request (log (world_of o))) /\
    (returned o = true ->
     count is_token (log (world_of o)) = count is_request (log (world_of o))).
Proof.
  destruct (do_POST_handled E body (start d)) as (o & Ho & _).
  exists o. split; [exact Ho|].
  pose proof (ends_do_POST (kept E) (cut E)
                (kept_refl E) (cut_refl E) (kept_trans E) (cut_after E) E
                (fun w => kept_plain E (ESleep interval) w eq_refl eq_refl)
                (own_check E)
                (fun url name => own_download E url _)) as H.
  assert (Hline : forall e w, is_response_line e = true -> kept E w (emit e w)).
  { intros e w He. apply kept_plain; destruct e; try discriminate He;
      reflexivity. }
  specialize (H Hline (own_create E) max_attempts body (start d) o Ho).
  assert (Hends : exists t, log (world_of o) = rev t /\
                    own_tokens E 0 t = true /\ owing t /\
                    (returned o = true -> balanced t)).
  { destruct o as [[] w'|e w']; simpl in H; destruct H as (t & L & B & O);
      simpl in L; rewrite app_nil_r in L; exists t;
      (split; [exact L|]); (split; [exact O|]).
    - split; [unfold balanced, owing in *; lia | intros _; exact B].
    - split; [exact B | discriminate]. }
  destruct Hends as (t & L & O & Ho' & Hb).
  unfold trace. rewrite L, rev_involutive, !count_rev.
  split; [exact O|]. split; [exact Ho'|]. exact Hb.
Qed.

(** ** One submission *)

Lemma lacks_app p e1 e2 : lacks p e1 -> lacks p e2 -> lacks p (e2 ++ e1).
Proof. unfold lacks. rewrite count_app. lia. Qed.

Lemma lacks_trans p w1 w2 w3 :
  adds (lacks p) w1 w2 -> adds (lacks p) w2 w3 -> adds (lacks p) w1 w3.
Proof. apply adds_trans, lacks_app. Qed.

Lemma unsubmitting_check E pid :
  framed (adds (lacks is_submit)) (adds (lacks is_submit))
         (check_project_results E pid).
Proof.
  intros w. pose proof (check_project_results_log E pid w) as H.
  destruct (check_project_results E pid w) as [v w'|e w']; simpl.
  - destruct H as (a & H). eexists. split; [exact H | reflexivity].
  - destruct H as [H|(a & H)]; (eexists; split; [exact H | reflexivity]).
Qed.

Lemma unsubmitting_download E url f :
  framed (adds (lacks is_submit)) (adds (lacks is_submit))
         (download_file E url f).
Proof.
  intros w. destruct (download_file_log E url f w) as (evs & Hs & H).
  destruct (download_file E url f w) as [v w'|e w']; simpl.
  - destruct H as (a & H). eexists. split; [exact H|].
    unfold lacks. count_events Hs.
  - destruct H as [H|[(a & H)|(a & H)]]; (eexists; split; [exact H|]);
      unfold lacks; count_events Hs.
Qed.

Lemma unsubmitting_line e w :
  is_response_line e = true -> adds (lacks is_submit) w (emit e w).
Proof.
  intros He. exists [e]. split; [reflexivity|].
  destruct e; try discriminate He; reflexivity.
Qed.

(** The loop and the answer add no submission to the log. *)
Lemma after_submit E fuel project w1 o :
  match while_pending E fuel project initial_locals w1 with
  | None => None
  | Some (Raise e w2) => Some (Raise e w2)
  | Some (Ok l w2) => Some (respond l w2)
  end = Some o ->
  adds (lacks is_submit) w1 (world_of o).
Proof.
  pose proof (ends_while (adds (lacks is_submit)) (adds (lacks is_submit))
                (fun w => adds_refl _ w eq_refl) (fun w => adds_refl _ w eq_refl)
                (lacks_trans is_submit) (lacks_trans is_submit) E
                (fun w => ex_intro _ [ESleep interval] (conj eq_refl eq_refl))
                (unsubmitting_check E)
                (fun url name => unsubmitting_download E url _)
                project fuel initial_locals w1) as Hw.
  destruct (while_pending E fuel project initial_locals w1) as [[l w2|e w2]|];
    [| |discriminate].
  - specialize (Hw _ eq_refl). simpl in Hw. intros [= <-].
    pose proof (framed_respond (adds (lacks is_submit)) (adds (lacks is_submit))
                  (fun w => adds_refl _ w eq_refl)
                  (fun w => adds_refl _ w eq_refl)
                  (lacks_trans is_submit) (lacks_trans is_submit)
                  unsubmitting_line l w2) as Hr.
    destruct (respond l w2); simpl in *; eapply lacks_trans; eassumption.
  - specialize (Hw _ eq_refl). intros [= <-]. exact Hw.
Qed.

Lemma submit_log E body w :
  match submit E body w with
  | Ok _ w' =>
      exists payload a,
        log w' = [ERelease (Submit payload); ERequest (Submit payload) a; EToken]
                 ++ log w
  | Raise _ w' =>
      log w' = log w \/ log w' = [EToken] ++ log w \/
      exists payload a, log w' = [ERequest (Submit payload) a; EToken] ++ log w
  end.
Proof.
  unfold submit, bind at 1. destruct body as [b|]; simpl; [|left; reflexivity].
  unfold bind at 1. destruct (subscript b "stateId") as [e|s]; simpl;
    [left; reflexivity|].
  unfold bind at 1. simpl.
  unfold bind at 1. destruct (subscript b "userId") as [e|u]; simpl;
    [left; reflexivity|].
  pose proof (create_project_log E s u (PyStr "Pdf") (PyStr "Cmyk") (PyInt 300) w) as H.
  destruct (create_project E s u (PyStr "Pdf") (PyStr "Cmyk") (PyInt 300) w);
    [exact H | right; exact H].
Qed.

(** X4: a run sends at most one render-hires request, whatever happens
    afterwards: the submission is never repeated. *)
Theorem submits_at_most_once E body d :
  exists o,
    do_POST E body (start d) = Some o /\
    count is_submit (log (world_of o)) <= 1.
Proof.
  destruct (do_POST_handled E body (start d)) as (o & Ho & _).
  exists o. split; [exact Ho|].
  unfold do_POST, do_POST_fuel in Ho.
  pose proof (submit_log E body (start d)) as Hs.
  destruct (submit E body (start d)) as [project w1|e w1].
  - destruct Hs as (payload & a & Hs).
    destruct (after_submit E _ project w1 o Ho) as (evs & Hl & Hev).
    rewrite Hl, Hs. unfold lacks in Hev. rewrite count_app, Hev.
    unfold count. simpl. lia.
  - injection Ho as <-. simpl.
    destruct Hs as [Hs|[Hs|(payload & a & Hs)]]; rewrite Hs;
      unfold count; simpl; lia.
Qed.

(** X5: the one submission carries what was posted: its [ownerId] is the
    posted [userId], its scenario has the posted [stateId] as [designId]
    and asks for a PDF in CMYK at 300 dpi. *)
Theorem submission_carries_the_body E b state_id user_id d o :
  auth_ok E ->
  subscript b "stateId" = inr state_id ->
  subscript b "userId" = inr user_id ->
  do_POST E (Some b) (start d) = Some o ->
  exists payload a scenario,
    In (ERequest (Submit payload) a) (log (world_of o)) /\
    subscript payload "ownerId" = inr user_id /\
    subscript payload "scenario" = inr scenario /\
    subscript scenario "designId" = inr state_id /\
    subscript scenario "dpi" = inr (PyInt 300) /\
    subscript scenario "format" = inr (PyStr "Pdf") /\
    subscript scenario "colorSpace" = inr (PyStr "Cmyk").
Proof.
  intros Ha Hs Hu Ho.
  destruct (bearer_ok E (start d) Ha) as (a & Hb).
  unfold do_POST, do_POST_fuel in Ho.
  assert (Hsub : exists payload scenario w1,
    (submit E (Some b) (start d) = Raise HTTPError w1 \/
     submit E (Some b) (start d) = Raise ValueError w1 \/
     exists project, submit E (Some b) (start d) = Ok project w1) /\
    In (ERequest (Submit payload) a) (log w1) /\
    subscript payload "ownerId" = inr user_id /\
    subscript payload "scenario" = inr scenario /\
    subscript scenario "designId" = inr state_id /\
    subscript scenario "dpi" = inr (PyInt 300) /\
    subscript scenario "format" = inr (PyStr "Pdf") /\
    subscript scenario "colorSpace" = inr (PyStr "Cmyk")).
  { unfold submit, create_project, bind, json_loads_data, lift, ret, raise,
      client_request, say.
    rewrite Hs, Hu, Hb.
    destruct (submit_reply E) as [|[v|]]; do 3 eexists;
      (split; [first [left; reflexivity | right; left; reflexivity
                     | right; right; eexists; reflexivity]|]);
      (split; [simpl; tauto | repeat split]). }
  destruct Hsub as (payload & scenario & w1 & Hrun & Hin & Hrest).
  exists payload, a, scenario. split; [|exact Hrest].
  destruct Hrun as [Hrun|[Hrun|(project & Hrun)]]; rewrite Hrun in Ho.
  - injection Ho as <-. exact Hin.
  - injection Ho as <-. exact Hin.
  - destruct (after_submit E _ project w1 o Ho) as (evs & Hl & _).
    rewrite Hl. apply in_or_app. right. exact Hin.
Qed.

Lemma submission_carries_the_body_witness :
  exists o,
    auth_ok env_pending /\
    subscript (PyDict [("stateId", PyStr "s1"); ("userId", PyStr "u1")])
              "stateId" = inr (PyStr "s1") /\
    subscript (PyDict [("stateId", PyStr "s1"); ("userId", PyStr "u1")])
              "userId" = inr (PyStr "u1") /\
    do_POST env_pending post_body (start ∅) = Some o /\
    exists payload a scenario,
      In (ERequest (Submit payload) a) (log (world_of o)) /\
      subscript payload "ownerId" = inr (PyStr "u1") /\
      subscript payload "scenario" = inr scenario /\
      subscript scenario "designId" = inr (PyStr "s1") /\
      subscript scenario "dpi" = inr (PyInt 300) /\
      subscript scenario "format" = inr (PyStr "Pdf") /\
      subscript scenario "colorSpace" = inr (PyStr "Cmyk").
Proof.
  eexists. split; [apply script_env_auth_ok|].
  split; [reflexivity|]. split; [reflexivity|].
  split; [vm_compute; reflexivity|].
  eapply (submission_carries_the_body env_pending
            (PyDict [("stateId", PyStr "s1"); ("userId", PyStr "u1")])
            (PyStr "s1") (PyStr "u1") ∅);
    [apply script_env_auth_ok | reflexivity | reflexivity
    | vm_compute; reflexivity].
Defined.

(** ** Connections of the JSON helpers *)

(** X6: [check_project_results] and [create_project] call [release_conn]
    exactly when they return: a request that raises, or an answer that is
    not JSON, leaves the connection unreleased. *)
Theorem json_helpers_release_on_return E :
  (forall pid w,
     count is_status_release (log (world_of (check_project_results E pid w))) =
     count is_status_release (log w) +
     (if returned (check_project_results E pid w) then 1 else 0)) /\
  (forall s u f c r w,
     count is_submit_release (log (world_of (create_project E s u f c r w))) =
     count is_submit_release (log w) +
     (if returned (create_project E s u f c r w) then 1 else 0)).
Proof.
  split.
  - intros pid w. pose proof (check_project_results_log E pid w) as H.
    destruct (check_project_results E pid w) as [v w'|e w']; simpl.
    + destruct H as (a & ->). rewrite count_app. unfold count. simpl. lia.
    + destruct H as [->|(a & ->)]; rewrite count_app; unfold count; simpl; lia.
  - intros s u f c r w. pose proof (create_project_log E s u f c r w) as H.
    destruct (create_project E s u f c r w) as [v w'|e w']; simpl.
    + destruct H as (payload & a & ->). rewrite count_app.
      unfold count. simpl. lia.
    + destruct H as [->|(payload & a & ->)]; rewrite count_app;
        unfold count; simpl; lia.
Qed.

(** ** Time spent waiting *)

Lemma slept_app l1 l2 : slept (l1 ++ l2) = slept l1 + slept l2.
Proof.
  induction l1 as [|e l1 IH]; simpl; [reflexivity|].
  destruct e; rewrite ?IH; lia.
Qed.

Lemma slept_quiet evs : quiet evs -> slept evs = 0.
Proof.
  unfold quiet. induction evs as [|e evs IH]; simpl; [reflexivity|].
  intros H. apply andb_prop in H as [He Hevs].
  destruct e; try discriminate He; apply IH, Hevs.
Qed.

Lemma turn_slept E l w o :
  turn E l w o -> slept (log (world_of o)) = interval + slept (log w).
Proof.
  intros Ht.
  inversion Ht as [e w' evs Hl Hev
                  |e w' pid a evs1 evs2 Hl H1 H2
                  |w' pid a evs1 evs2 Hl H1 H2 Hst
                  |w' pid a evs1 evs2 Hl H1 H2 Hnt]; subst; simpl; rewrite Hl;
    repeat (rewrite slept_app; simpl);
    rewrite ?(slept_quiet _ Hev), ?(slept_quiet _ H1), ?(slept_quiet _ H2);
    reflexivity.
Qed.

Lemma polls_slept E l w o :
  polls E l w o ->
  slept (log (world_of o)) <= slept (log w) + interval * (max_attempts - counter l) /\
  (returned o = true ->
   slept (log (world_of o)) + interval * queries w =
   slept (log w) + interval * queries (world_of o)).
Proof.
  induction 1 as [l w Hgo | l w e w' Hgo Ht | l w l' w' o Hgo Ht Hp IH].
  - simpl. split; lia.
  - apply turn_slept in Ht. simpl in *.
    unfold goes_on in Hgo. apply andb_prop in Hgo as [_ Hlt].
    apply Nat.ltb_lt in Hlt. unfold interval, max_attempts in *.
    split; [lia | discriminate].
  - assert (Hc : counter l' = counter l + 1) by (inversion Ht; reflexivity).
    pose proof (turn_Ok_queries _ _ _ _ _ Ht) as Hq.
    apply turn_slept in Ht. simpl in Ht.
    unfold goes_on in Hgo. apply andb_prop in Hgo as [_ Hlt].
    apply Nat.ltb_lt in Hlt. destruct IH as [IH1 IH2].
    unfold interval, max_attempts in *.
    split; [lia | intros Hr; specialize (IH2 Hr); lia].
Qed.

Lemma quietly_slept {A} (m : M A) w :
  quietly m -> slept (log (world_of (m w))) = slept (log w).
Proof.
  intros Hm. destruct (Hm w) as (evs & Hl & Hq).
  rewrite Hl, slept_app, (slept_quiet _ Hq). reflexivity.
Qed.

(** X7: the waits of a run add up to at most 60 seconds; a run that
    returns has waited 3 seconds for each of its status queries. *)
Theorem waits_at_most_a_minute E body d :
  exists o,
    do_POST E body (start d) = Some o /\
    slept (log (world_of o)) <= 60 /\
    (returned o = true ->
     slept (log (world_of o)) = 3 * queries (world_of o)).
Proof.
  destruct (do_POST_handled E body (start d)) as (o & Ho & Hh).
  exists o. split; [exact Ho|].
  pose proof (quietly_slept (submit E body) (start d) (quietly_submit E body)) as Hs.
  destruct (quiet_world (submit E body) (start d) (quietly_submit E body))
    as (Hq & _ & _).
  destruct Hh as [e w1 Hsub | project w1 e w2 Hsub Hp
                 | project w1 l w2 w3 Hsub Hp Hd Hr];
    rewrite Hsub in Hs, Hq; simpl in Hs, Hq.
  - simpl. rewrite Hs. split; [lia | discriminate].
  - destruct (polls_slept _ _ _ _ Hp) as [Hle _]. simpl in Hle |- *.
    rewrite Hs in Hle. unfold interval, max_attempts in Hle. simpl in Hle.
    split; [lia | discriminate].
  - destruct (polls_slept _ _ _ _ Hp) as [Hle Heq]. simpl in Hle, Heq |- *.
    specialize (Heq eq_refl). rewrite Hs in Hle, Heq. rewrite Hq in Heq.
    unfold interval, max_attempts in Hle, Heq. simpl in Hle.
    destruct (respond_spec l w2 Hd) as (w3' & Hr' & _ & Hl).
    rewrite Hr in Hr'. injection Hr' as <-.
    destruct (respond_world l w2 w3 Hd Hr) as (Hq3 & _ & _).
    assert (Hs3 : slept (log w3) = slept (log w2)).
    { rewrite Hl, slept_app. destruct (isSuccess l); reflexivity. }
    rewrite Hs3, Hq3. unfold queries at 1, count in Heq. simpl in Heq.
    split; [lia | intros _; lia].
Qed.

(** ** Requests and answers that cannot be used *)

(** X8: when the posted body is not JSON or lacks [stateId] or [userId],
    the handler raises at once: no token is asked for, nothing is
    submitted, nothing is sent back, the world is as it was. *)
Theorem bad_body_makes_no_request E body w :
  ~ body_ok body ->
  exists e, do_POST E body w = Some (Raise e w).
Proof.
  intros Hbad.
  unfold do_POST, do_POST_fuel, submit, bind, json_loads_data, lift, ret, raise.
  destruct body as [b|]; [|eexists; reflexivity].
  destruct (subscript b "stateId") as [e|s] eqn:Hs; [eexists; reflexivity|].
  destruct (subscript b "userId") as [e|u] eqn:Hu; [eexists; reflexivity|].
  exfalso. apply Hbad. exists b, s, u. repeat split; assumption.
Qed.

Lemma bad_body_makes_no_request_witness :
  ~ body_ok (Some (PyDict [("stateId", PyStr "s1")])) /\
  exists e, do_POST env_completed (Some (PyDict [("stateId", PyStr "s1")]))
                    (start ∅) = Some (Raise e (start ∅)).
Proof.
  assert (Hbad : ~ body_ok (Some (PyDict [("stateId", PyStr "s1")]))).
  { intros (b & s & u & Hb & _ & Hu). injection Hb as <-. discriminate Hu. }
  split; [exact Hbad|].
  apply (bad_body_makes_no_request env_completed _ (start ∅) Hbad).
Defined.

Lemma loop_body_unanswered E project pid l w :
  auth_ok E -> subscript project "id" = inr pid ->
  status_of (status_reply E (queries w)) = None ->
  exists e w', loop_body E project l w = Raise e w' /\ polled 1 w w'.
Proof.
  intros Ha Hid Hnone.
  destruct (bearer_ok E (emit (ESleep interval) w) Ha) as (a & Hb).
  unfold loop_body, check_project_results, bind, say, lift, ret, raise,
    client_request, json_loads_data.
  rewrite Hid, Hb.
  change (queries (emit EToken (emit (ESleep interval) w))) with (queries w).
  unfold status_of in Hnone.
  assert (Hp : forall w', log w' = ERequest (Status pid) a :: EToken ::
                                   ESleep interval :: log w ->
                          disk w' = disk w -> polled 1 w w').
  { intros w' Hl Hd. split; [|split; [exact Hd|split]].
    - unfold queries, count. rewrite Hl. simpl. lia.
    - unfold response_of, trace. rewrite !rev_filter, Hl. reflexivity.
    - unfold files_of, trace. rewrite !rev_filter, Hl. reflexivity. }
  destruct (status_reply E (queries w)) as [|[v|]].
  - do 2 eexists. split; [reflexivity | apply Hp; reflexivity].
  - unfold ret. cbv beta iota.
    destruct (subscript v "status") as [e|s]; [|discriminate].
    do 2 eexists. split; [reflexivity | apply polled_asked].
  - do 2 eexists. split; [reflexivity | apply Hp; reflexivity].
Qed.

(** X9: a status query that fails, or whose answer is not a JSON object
    with a [status], ends the run by an exception: the queries stop there
    and nothing is sent back. *)
Theorem unanswered_status_raises E body d n :
  auth_ok E -> submit_ok E -> body_ok body -> n < 20 ->
  (forall i, i < n -> still_running (status_reply E i) = true) ->
  status_of (status_reply E n) = None ->
  exists e w',
    do_POST E body (start d) = Some (Raise e w') /\
    queries w' = S n /\ response_of w' = [] /\ disk w' = d.
Proof.
  intros Ha Hsub Hbody Hn Hrun Hnone.
  destruct (do_POST_running E body d n Ha Hsub Hbody) as
    (project & pid & w & Hid & (Hq & Hd & Hr & _) & Hdo);
    [unfold max_attempts; lia | assumption |].
  change (queries w = n) in Hq. change (response_of w = []) in Hr.
  change (disk w = d) in Hd. rewrite <- Hq in Hnone.
  destruct (loop_body_unanswered E project pid
              (Nat.iter n bump initial_locals) w Ha Hid Hnone)
    as (e & w' & Hb & (Hq' & Hd' & Hr' & _)).
  destruct (max_attempts - n) as [|fuel] eqn:Hfuel;
    [unfold max_attempts in Hfuel; lia|].
  cbn [while_pending] in Hdo. rewrite Hb, iter_bump in Hdo.
  cbn [isPending counter initial_locals andb] in Hdo.
  assert (Hlt : (0 + n <? max_attempts)%nat = true)
    by (apply Nat.ltb_lt; unfold max_attempts; lia).
  rewrite Hlt in Hdo.
  exists e, w'. split; [exact Hdo|].
  split; [lia|]. split; congruence.
Qed.

Lemma unanswered_status_raises_witness :
  auth_ok (script_env [status_body "Pending"; NoResponse] no_files) /\
  submit_ok (script_env [status_body "Pending"; NoResponse] no_files) /\
  body_ok post_body /\ 1 < 20 /\
  (forall i, i < 1 ->
     still_running (status_reply
       (script_env [status_body "Pending"; NoResponse] no_files) i) = true) /\
  status_of (status_reply
    (script_env [status_body "Pending"; NoResponse] no_files) 1) = None /\
  exists e w',
    do_POST (script_env [status_body "Pending"; NoResponse] no_files)
            post_body (start ∅) = Some (Raise e w') /\
    queries w' = 2 /\ response_of w' = [] /\ disk w' = ∅.
Proof.
  assert (Hrun : forall i, i < 1 ->
     still_running (status_reply
       (script_env [status_body "Pending"; NoResponse] no_files) i) = true).
  { intros [|i] Hi; [reflexivity | lia]. }
  split; [apply script_env_auth_ok|]. split; [apply script_env_submit_ok|].
  split; [apply post_body_ok|]. split; [lia|]. split; [exact Hrun|].
  split; [reflexivity|].
  apply (unanswered_status_raises _ post_body ∅ 1);
    [apply script_env_auth_ok | apply script_env_submit_ok | apply post_body_ok
    | lia | exact Hrun | reflexivity].
Defined.

(** ** Runs that end with [Completed] *)

Lemma do_POST_completed E body d n v details items :
  auth_ok E -> submit_ok E -> body_ok body -> n < 20 ->
  (forall i, i < n -> still_running (status_reply E i) = true) ->
  status_reply E n = Body (Some v) ->
  subscript v "status" = inr (PyStr "Completed") ->
  subscript v "outputFileDetails" = inr details ->
  py_iter details = inr items ->
  exists pid a w,
    polled n (start d) w /\
    do_POST E body (start d) =
    match download_all E items (asked pid a w) with
    | Ok _ w3 => Some (respond (succeeded (Nat.iter n bump initial_locals)) w3)
    | Raise e w3 => Some (Raise e w3)
    end.
Proof.
  intros Ha Hsub Hbody Hn Hrun Hv Hs Hdetails Hitems.
  destruct (do_POST_at_completed E body d n v Ha Hsub Hbody Hn Hrun Hv Hs)
    as (pid & a & w & Hp & Hdo).
  rewrite Hdetails, Hitems in Hdo. exists pid, a, w. split; assumption.
Qed.

Lemma well_served_served E url : well_served E url = true -> served E url = true.
Proof.
  unfold well_served, served. destruct (download_reply E url) as [reads|];
    [|discriminate].
  induction reads as [|r reads IH]; [reflexivity|]. simpl.
  intros H. apply andb_prop in H as [Hr Hrest]. rewrite (IH Hrest).
  destruct r as [[|b data]|]; try discriminate Hr. reflexivity.
Qed.

(** X10: when the answer to query [n + 1] is [Completed] and every listed
    file can be fetched, the run stops polling there, stores each file
    under [<name>.pdf] (a later one replacing an earlier one of the same
    name) and only then writes the success response: the four response
    lines are the last events of the run, and the file events before them
    are those of the listed downloads, one after the other. *)
Theorem completed_run_stores_the_files E body d n ds :
  auth_ok E -> submit_ok E -> body_ok body -> storage_ok E -> n < 20 ->
  (forall i, i < n -> still_running (status_reply E i) = true) ->
  answers_completed (status_reply E n) (map descriptor_of ds) ->
  (forall x, In x ds -> well_served E (PyStr (fst x)) = true) ->
  exists w',
    do_POST E body (start d) = Some (Ok tt w') /\
    queries w' = S n /\
    disk w' = stored E ds d /\
    response_of w' = response_lines "Successfully saved a file." /\
    exists t,
      trace w' = t ++ response_lines "Successfully saved a file." /\
      List.filter is_response_line t = [] /\
      List.filter is_file_event t = flat_map (file_events E) ds.
Proof.
  intros Ha Hsub Hbody Hst Hn Hrun (v & Hv & Hs & Hdetails) Hserved.
  destruct (do_POST_completed E body d n v _ _ Ha Hsub Hbody Hn Hrun Hv Hs
              Hdetails eq_refl) as (pid & a & w & (Hq & Hd & Hr & Hf) & Hdo).
  destruct (polled_asked pid a w) as (_ & _ & _ & Hf1).
  rewrite Hf in Hf1. change (files_of (asked pid a w) = []) in Hf1.
  destruct (download_all_ok E ds (asked pid a w) Ha Hst Hserved)
    as (w3 & evs & Hfetch & Hd3 & Hl & (_ & _ & _ & Hquiet)).
  destruct (download_all_fetch E ds (asked pid a w) Ha Hst)
    as (w4 & t & Hfetch4 & _ & Hl4 & Hf4).
  { intros x Hx. apply well_served_served, Hserved, Hx. }
  rewrite Hfetch in Hfetch4. injection Hfetch4 as <-.
  rewrite Hfetch in Hdo.
  assert (Hq3 : queries w3 = S n).
  { rewrite (queries_quiet _ _ _ Hl Hquiet), queries_asked, Hq. reflexivity. }
  assert (Hr3 : response_of w3 = []).
  { unfold response_of, trace in *. rewrite rev_filter in *.
    rewrite Hl, List.filter_app, (quiet_count _ _ plain_not_response Hquiet).
    exact Hr. }
  destruct (success_answer n w3 Hr3) as (w' & Hrun' & Hq' & Hd' & Hr' & Ht').
  rewrite Hrun' in Hdo. exists w'. split; [exact Hdo|].
  split; [congruence|]. split; [|split; [exact Hr'|]].
  - rewrite Hd', Hd3. simpl. rewrite Hd. reflexivity.
  - exists (trace w3). split; [exact Ht'|]. split; [exact Hr3|].
    unfold trace. rewrite Hl4, rev_app_distr, rev_involutive, List.filter_app.
    fold (trace (asked pid a w)). fold (files_of (asked pid a w)).
    rewrite Hf1, Hf4. reflexivity.
Qed.

Lemma completed_run_stores_the_files_witness :
  auth_ok env_completed /\ submit_ok env_completed /\ body_ok post_body /\
  storage_ok env_completed /\ 2 < 20 /\
  (forall i, i < 2 -> still_running (status_reply env_completed i) = true) /\
  answers_completed (status_reply env_completed 2)
                    (map descriptor_of [("u1", "a")]) /\
  (forall x, In x [("u1", "a")] -> well_served env_completed (PyStr (fst x)) = true) /\
  exists w',
    do_POST env_completed post_body (start ∅) = Some (Ok tt w') /\
    queries w' = 3 /\
    disk w' = stored env_completed [("u1", "a")] ∅ /\
    response_of w' = response_lines "Successfully saved a file." /\
    exists t,
      trace w' = t ++ response_lines "Successfully saved a file." /\
      List.filter is_response_line t = [] /\
      List.filter is_file_event t =
        [EOpen "a.pdf"; ERead chunk_size; EWrite "a.pdf" ["x"%byte];
         ERead chunk_size; EClose "a.pdf"].
Proof.
  assert (Hrun : forall i, i < 2 ->
                 still_running (status_reply env_completed i) = true).
  { intros [|[|i]] Hi; [reflexivity | reflexivity | lia]. }
  assert (Hc : answers_completed (status_reply env_completed 2)
                                 (map descriptor_of [("u1", "a")])).
  { eexists. repeat split; reflexivity. }
  assert (Hs : forall x, In x [("u1", "a")] ->
                         well_served env_completed (PyStr (fst x)) = true).
  { intros x [<-|[]]. reflexivity. }
  split; [apply script_env_auth_ok|]. split; [apply script_env_submit_ok|].
  split; [apply post_body_ok|]. split; [apply script_env_storage_ok|].
  split; [lia|]. split; [exact Hrun|]. split; [exact Hc|]. split; [exact Hs|].
  exact (completed_run_stores_the_files env_completed post_body ∅ 2 [("u1", "a")]
           (script_env_auth_ok _ _) (script_env_submit_ok _ _) post_body_ok
           (script_env_storage_ok _ _) ltac:(lia) Hrun Hc Hs).
Defined.

(** X11: a [Completed] answer that lists no file (an empty list, dict or
    string as [outputFileDetails]) still gets "Successfully saved a file.":
    the run writes the success response though it has stored nothing. *)
Theorem completed_without_files_succeeds E body d n v details :
  auth_ok E -> submit_ok E -> body_ok body -> n < 20 ->
  (forall i, i < n -> still_running (status_reply E i) = true) ->
  status_reply E n = Body (Some v) ->
  subscript v "status" = inr (PyStr "Completed") ->
  subscript v "outputFileDetails" = inr details ->
  py_iter details = inr [] ->
  exists w',
    do_POST E body (start d) = Some (Ok tt w') /\
    queries w' = S n /\
    disk w' = d /\
    response_of w' = response_lines "Successfully saved a file.".
Proof.
  intros Ha Hsub Hbody Hn Hrun Hv Hs Hdetails Hitems.
  destruct (do_POST_completed E body d n v _ _ Ha Hsub Hbody Hn Hrun Hv Hs
              Hdetails Hitems) as (pid & a & w & (Hq & Hd & Hr & _) & Hdo).
  assert (Hfetch : download_all E [] (asked pid a w) = Ok tt (asked pid a w))
    by reflexivity.
  rewrite Hfetch in Hdo.
  destruct (polled_asked pid a w) as (Hq1 & Hd1 & Hr1 & _).
  destruct (success_answer n (asked pid a w)) as (w' & Hrun' & Hq' & Hd' & Hr' & _).
  { rewrite Hr1. exact Hr. }
  rewrite Hrun' in Hdo. exists w'. split; [exact Hdo|].
  split; [rewrite Hq', Hq1, Hq; simpl; lia|].
  split; [rewrite Hd', Hd1; exact Hd | exact Hr'].
Qed.

Lemma completed_without_files_succeeds_witness :
  auth_ok (script_env [completed_body []] no_files) /\
  submit_ok (script_env [completed_body []] no_files) /\
  body_ok post_body /\ 0 < 20 /\
  (forall i, i < 0 ->
     still_running (status_reply (script_env [completed_body []] no_files) i)
     = true) /\
  status_reply (script_env [completed_body []] no_files) 0 =
    Body (Some (PyDict [("status", PyStr "Completed");
                        ("outputFileDetails", PyList [])])) /\
  exists w',
    do_POST (script_env [completed_body []] no_files) post_body (start ∅) =
      Some (Ok tt w') /\
    queries w' = 1 /\ disk w' = ∅ /\
    response_of w' = response_lines "Successfully saved a file.".
Proof.
  split; [apply script_env_auth_ok|]. split; [apply script_env_submit_ok|].
  split; [apply post_body_ok|]. split; [lia|]. split; [intros i Hi; lia|].
  split; [reflexivity|].
  apply (completed_without_files_succeeds _ post_body ∅ 0
           (PyDict [("status", PyStr "Completed"); ("outputFileDetails", PyList [])])
           (PyList []));
    [apply script_env_auth_ok | apply script_env_submit_ok | apply post_body_ok
    | lia | intros i Hi; lia | reflexivity | reflexivity | reflexivity
    | reflexivity].
Defined.

(** ** Downloads that break off *)

Lemma read_loop_cut E f rest good : forall old w,
  (forall n, write_fails E n = false) ->
  forallb good_read good = true ->
  disk w !! f = Some old ->
  exists w' evs,
    read_loop E f (good ++ ReadError :: rest) w = Raise HTTPError w' /\
    disk w' = <[f := old ++ chunks_of good]> (disk w) /\
    log w' = evs ++ log w /\ forallb is_stream evs = true.
Proof.
  induction good as [|r good IH]; intros old w Hw Hgood Hold.
  - exists (emit (ERead chunk_size) w), [ERead chunk_size].
    unfold chunks_of. simpl. rewrite app_nil_r, insert_id by assumption.
    repeat split.
  - simpl in Hgood. apply andb_prop in Hgood as [Hr Hrest].
    destruct r as [[|b data]|]; try discriminate.
    cbn [app read_loop]. unfold bind at 1, say. unfold bind at 1, out_write.
    rewrite Hw. cbn [emit disk log]. rewrite Hold. cbn [default].
    match goal with |- context [read_loop E f _ ?w1] =>
      destruct (IH (old ++ b :: data) w1 Hw Hrest) as (w' & evs & Hrun & Hd & Hl & Hs)
    end.
    { simpl. apply lookup_insert_eq. }
    exists w', (evs ++ [EWrite f (b :: data); ERead chunk_size]).
    split; [exact Hrun|]. split; [|split].
    + rewrite Hd. unfold chunks_of. cbn [set_disk emit disk map chunk_data concat].
      rewrite insert_insert_eq, <- app_assoc. reflexivity.
    + rewrite Hl, <- app_assoc. reflexivity.
    + rewrite forallb_app, Hs. reflexivity.
Qed.

(** X12: when a read of the body fails, [download_file] raises and leaves a
    partial file behind: the file holds the chunks read before the failure,
    it has been closed, and the connection has not been released. *)
Theorem broken_download_leaves_partial_file E url f w good rest :
  auth_ok E -> open_fails E f = false ->
  (forall n, write_fails E n = false) ->
  download_reply E url = Some (good ++ ReadError :: rest) ->
  forallb good_read good = true ->
  exists w',
    download_file E url f w = Raise HTTPError w' /\
    disk w' !! f = Some (chunks_of good) /\
    hd_error (log w') = Some (EClose f) /\
    count is_release (log w') = count is_release (log w).
Proof.
  intros Ha Hopen Hwrite Hreply Hgood.
  destruct (bearer_ok E w Ha) as (a & Hb).
  unfold download_file, bind, finally, say, open_wb.
  rewrite Hb, Hreply, Hopen.
  match goal with |- context [read_loop E f _ ?w1] =>
    destruct (read_loop_cut E f rest good [] w1 Hwrite Hgood)
      as (w2 & evs & Hrun & Hd & Hl & Hs)
  end.
  { simpl. apply lookup_insert_eq. }
  rewrite Hrun. eexists. split; [reflexivity|].
  cbn [emit disk log]. split; [|split; [reflexivity|]].
  - rewrite Hd. apply lookup_insert_eq.
  - rewrite Hl. cbn [emit set_disk log].
    rewrite count_cons, count_app, (stream_count is_release evs) by
      (try assumption; intros []; simpl; congruence).
    unfold count. simpl. reflexivity.
Qed.

Lemma broken_download_leaves_partial_file_witness :
  exists w',
    download_file
      (script_env [] (fun _ => Some [Chunk ["x"%byte; "y"%byte]; ReadError]))
      (PyStr "u") "a.pdf" (start ∅) = Raise HTTPError w' /\
    disk w' !! "a.pdf" = Some ["x"%byte; "y"%byte] /\
    hd_error (log w') = Some (EClose "a.pdf") /\
    count is_release (log w') = 0.
Proof.
  apply (broken_download_leaves_partial_file
           (script_env [] (fun _ => Some [Chunk ["x"%byte; "y"%byte]; ReadError]))
           (PyStr "u") "a.pdf" (start ∅) [Chunk ["x"%byte; "y"%byte]] []);
    [apply script_env_auth_ok | reflexivity | reflexivity | reflexivity
    | reflexivity].
Defined.

Lemma for_each_app {A} (body : A -> M unit) xs ys : forall w,
  for_each (xs ++ ys) body w =
  match for_each xs body w with
  | Ok _ w1 => for_each ys body w1
  | Raise e w1 => Raise e w1
  end.
Proof.
  induction xs as [|x xs IH]; intros w; [reflexivity|].
  cbn [app for_each]. unfold bind.
  destruct (body x w) as [[] w1|e w1]; [apply IH | reflexivity].
Qed.

Lemma download_all_app E xs ys w :
  download_all E (xs ++ ys) w =
  match download_all E xs w with
  | Ok _ w1 => download_all E ys w1
  | Raise e w1 => Raise e w1
  end.
Proof. apply for_each_app. Qed.

Lemma refused_download E item url name rest w :
  auth_ok E ->
  subscript item "url" = inr url -> subscript item "name" = inr name ->
  download_reply E url = None ->
  exists w', download_all E (item :: rest) w = Raise HTTPError w' /\
             disk w' = disk w /\
             exists evs, log w' = evs ++ log w /\ quiet evs /\
                         count is_open evs = 0.
Proof.
  intros Ha Hurl Hname Hreply.
  destruct (bearer_ok E w Ha) as (a & Hb).
  unfold download_all. cbn [for_each].
  unfold download_file, bind, lift, say. rewrite Hurl, Hname.
  unfold ret. cbv beta iota. rewrite Hb. cbv beta iota. rewrite Hreply.
  unfold raise.
  eexists. split; [reflexivity|]. split; [reflexivity|].
  exists [ERequest (Download url) a; EToken]. repeat split.
Qed.

(** X13: the files of a [Completed] answer are fetched in order and nothing
    is undone: when the GET of one of them is refused, the handler raises
    without a response, and the disk holds the files listed before it and
    none of those listed after it. *)
Theorem refused_download_keeps_earlier_files
    E body d n v ds item url name rest :
  auth_ok E -> submit_ok E -> body_ok body -> storage_ok E -> n < 20 ->
  (forall i, i < n -> still_running (status_reply E i) = true) ->
  status_reply E n = Body (Some v) ->
  subscript v "status" = inr (PyStr "Completed") ->
  subscript v "outputFileDetails" =
    inr (PyList (map descriptor_of ds ++ item :: rest)) ->
  (forall x, In x ds -> well_served E (PyStr (fst x)) = true) ->
  subscript item "url" = inr url -> subscript item "name" = inr name ->
  download_reply E url = None ->
  exists w',
    do_POST E body (start d) = Some (Raise HTTPError w') /\
    queries w' = S n /\
    disk w' = stored E ds d /\
    response_of w' = [].
Proof.
  intros Ha Hsub Hbody Hst Hn Hrun Hv Hs Hdetails Hserved Hurl Hname Hreply.
  destruct (do_POST_completed E body d n v _ _ Ha Hsub Hbody Hn Hrun Hv Hs
              Hdetails eq_refl) as (pid & a & w & (Hq & Hd & Hr & _) & Hdo).
  rewrite download_all_app in Hdo.
  destruct (download_all_ok E ds (asked pid a w) Ha Hst Hserved)
    as (w3 & evs & Hfetch & Hd3 & Hl & (_ & _ & _ & Hquiet)).
  rewrite Hfetch in Hdo.
  destruct (refused_download E item url name rest w3 Ha Hurl Hname Hreply)
    as (w4 & Hrefused & Hd4 & evs4 & Hl4 & Hquiet4 & _).
  rewrite Hrefused in Hdo. exists w4. split; [exact Hdo|]. split; [|split].
  - rewrite (queries_quiet _ _ _ Hl4 Hquiet4), (queries_quiet _ _ _ Hl Hquiet),
      queries_asked, Hq. reflexivity.
  - rewrite Hd4, Hd3. simpl. rewrite Hd. reflexivity.
  - unfold response_of, trace in *. rewrite rev_filter in *.
    rewrite Hl4, Hl, !List.filter_app,
      (quiet_count _ _ plain_not_response Hquiet),
      (quiet_count _ _ plain_not_response Hquiet4).
    exact Hr.
Qed.

Lemma refused_download_keeps_earlier_files_witness :
  exists w',
    do_POST (script_env [completed_body [descriptor_of ("u1", "a");
                                         descriptor_of ("gone", "b");
                                         descriptor_of ("u2", "c")]]
                        two_files)
            post_body (start ∅) = Some (Raise HTTPError w') /\
    queries w' = 1 /\
    disk w' = stored (script_env [] two_files) [("u1", "a")] ∅ /\
    response_of w' = [].
Proof.
  apply (refused_download_keeps_earlier_files
           (script_env [completed_body [descriptor_of ("u1", "a");
                                        descriptor_of ("gone", "b");
                                        descriptor_of ("u2", "c")]]
                       two_files)
           post_body ∅ 0
           (PyDict [("status", PyStr "Completed");
                    ("outputFileDetails",
                     PyList [descriptor_of ("u1", "a");
                             descriptor_of ("gone", "b");
                             descriptor_of ("u2", "c")])])
           [("u1", "a")] (descriptor_of ("gone", "b"))
           (PyStr "gone") (PyStr "b") [descriptor_of ("u2", "c")]);
    [apply script_env_auth_ok | apply script_env_submit_ok | apply post_body_ok
    | apply script_env_storage_ok | lia | intros i Hi; lia | reflexivity
    | reflexivity | reflexivity | intros x [<-|[]]; reflexivity
    | reflexivity | reflexivity | reflexivity].
Defined.

(** * The editor page *)

Lemma spends_trans t1 n1 m1 t2 n2 m2 s1 s2 s3 :
  spends t1 n1 m1 s1 s2 -> spends t2 n2 m2 s2 s3 ->
  spends (t2 + t1) (n1 + n2) (m1 + m2) s1 s3.
Proof.
  intros (L1 & D1 & N1 & M1) (L2 & D2 & N2 & M2). repeat split.
  - rewrite L2, L1, repeat_app, app_assoc. reflexivity.
  - congruence.
  - lia.
  - lia.
Qed.

Lemma tenant_fetch X s :
  match get_tenant_applications X s with
  | Done v s' =>
      spends 1 1 0 s s' /\ tenant_reply X (tenants s) = Text (Some v) /\
      exists a, calls s' = CTenantRelease :: CTenant a :: calls s
  | Broke e s' =>
      (spends 1 0 0 s s' /\ calls s' = calls s) \/
      exists a, spends 1 1 0 s s' /\
        (calls s' = CTenant a :: calls s \/
         calls s' = CTenantRelease :: CTenant a :: calls s /\
         tenant_reply X (tenants s) = Text None)
  end.
Proof.
  unfold get_tenant_applications, gbind at 1, on_server.
  pose proof (bearer_log (api X) (server s)) as Hl.
  pose proof (bearer_disk (api X) (server s)) as Hd.
  destruct (bearer (api X) (server s)) as [a w|e w]; simpl in Hl, Hd.
  2:{ left. repeat split; simpl; try assumption; unfold tenants, editors; simpl; lia. }
  unfold text_request, gbind, note, json_loads, gret, graise.
  change (tenants {| server := w; calls := calls s |}) with (tenants s).
  assert (Hsp : forall cs, tally is_tenant cs = 0 -> tally is_editor cs = 0 ->
                spends 1 1 0 s {| server := w; calls := cs ++ CTenant a :: calls s |}).
  { intros cs Ht He. repeat split; simpl; try assumption;
      unfold tenants, editors, tally in *; simpl;
      rewrite List.filter_app, length_app; simpl; lia. }
  destruct (tenant_reply X (tenants s)) as [| |[v|]]; simpl.
  - right. exists a. split; [apply (Hsp []); reflexivity | left; reflexivity].
  - right. exists a. split; [apply (Hsp []); reflexivity | left; reflexivity].
  - split; [apply (Hsp [CTenantRelease]); reflexivity|].
    split; [reflexivity | exists a; reflexivity].
  - right. exists a. split; [apply (Hsp [CTenantRelease]); reflexivity|].
    right. split; reflexivity.
Qed.

(** X14: [get_tenant_applications] releases the connection before it loads
    the text as JSON: once the request has been answered with text, the
    connection is released whether or not the text is JSON; it is not
    released when the request or the decoding fails. *)
Theorem tenant_info_is_released_before_parsing X s :
  done (on_server (bearer (api X)) s) = true ->
  tally is_tenant_release (calls (site_of (get_tenant_applications X s))) =
  tally is_tenant_release (calls s) +
  match tenant_reply X (tenants s) with
  | Text _ => 1
  | _ => 0
  end.
Proof.
  unfold get_tenant_applications, gbind at 1, on_server.
  destruct (bearer (api X) (server s)) as [a w|e w]; [intros _ | discriminate].
  unfold text_request, gbind, note, json_loads, gret, graise.
  change (tenants {| server := w; calls := calls s |}) with (tenants s).
  destruct (tenant_reply X (tenants s)) as [| |[v|]]; unfold tally; simpl; lia.
Qed.

Lemma tenant_info_is_released_before_parsing_witness :
  done (on_server (bearer (api front_garbled)) (fresh_site ∅)) = true /\
  done (get_tenant_applications front_garbled (fresh_site ∅)) = false /\
  tally is_tenant_release
        (calls (site_of (get_tenant_applications front_garbled (fresh_site ∅))))
  = 1.
Proof.
  split; [reflexivity|]. split; [reflexivity|].
  rewrite (tenant_info_is_released_before_parsing front_garbled (fresh_site ∅));
    reflexivity.
Defined.

Lemma key_fetch X key s :
  match (let+ applications := get_tenant_applications X in
         glift (subscript applications key)) s with
  | Done u s' =>
      spends 1 1 0 s s' /\
      exists v, tenant_reply X (tenants s) = Text (Some v) /\
                subscript v key = inr u
  | Broke _ s' => exists n, n <= 1 /\ spends 1 n 0 s s'
  end.
Proof.
  unfold gbind. pose proof (tenant_fetch X s) as H.
  destruct (get_tenant_applications X s) as [v s'|e s'].
  - destruct H as (Hsp & Hv & _).
    destruct (subscript v key) as [e|u] eqn:Hk; simpl.
    + exists 1. split; [lia | exact Hsp].
    + split; [exact Hsp | exists v; split; assumption].
  - destruct H as [[Hsp _]|(a & Hsp & _)];
      [exists 0 | exists 1]; (split; [lia | exact Hsp]).
Qed.

Lemma editor_token_fetch X user_id s :
  match get_design_editor_token X user_id s with
  | Done token s' =>
      spends 2 2 1 s s' /\
      exists v1 v2 v3 url key,
        tenant_reply X (tenants s) = Text (Some v1) /\
        subscript v1 "designEditorUrl" = inr url /\
        tenant_reply X (S (tenants s)) = Text (Some v2) /\
        subscript v2 "designEditorApiKey" = inr key /\
        editor_reply X (editors s) = Text (Some v3) /\
        subscript v3 "tokenId" = inr token /\
        hd_error (calls s') = Some CEditorTokenRelease /\
        In (CEditorToken (tokens_url X url user_id) (py_str (api X) key))
           (calls s')
  | Broke _ s' =>
      exists t n m,
        1 <= t <= 2 /\ n <= t /\ m <= 1 /\ (m = 1 -> n = 2) /\
        spends t n m s s'
  end.
Proof.
  unfold get_design_editor_token, gbind at 1.
  pose proof (key_fetch X "designEditorUrl" s) as H1.
  fold (get_design_editor_url X) in H1.
  destruct (get_design_editor_url X s) as [url s1|e s1].
  2:{ destruct H1 as (n & Hn & Hsp). exists 1, n, 0.
      do 4 (split; [lia|]). exact Hsp. }
  destruct H1 as (Hsp1 & v1 & Hv1 & Hurl).
  unfold gbind at 1.
  pose proof (key_fetch X "designEditorApiKey" s1) as H2.
  fold (get_design_editor_apikey X) in H2.
  destruct (get_design_editor_apikey X s1) as [key s2|e s2].
  2:{ destruct H2 as (n & Hn & Hsp). exists 2, (1 + n), 0.
      do 4 (split; [lia|]). apply (spends_trans _ _ _ _ _ _ _ _ _ Hsp1 Hsp). }
  destruct H2 as (Hsp2 & v2 & Hv2 & Hkey).
  pose proof (spends_trans _ _ _ _ _ _ _ _ _ Hsp1 Hsp2) as Hsp.
  assert (Ht1 : tenants s1 = S (tenants s)) by (destruct Hsp1 as (_ & _ & -> & _); lia).
  assert (He2 : editors s2 = editors s) by (destruct Hsp as (_ & _ & _ & ->); lia).
  rewrite Ht1 in Hv2. rewrite He2.
  unfold text_request, gbind, note, json_loads, glift, gret, graise.
  set (c := CEditorToken (tokens_url X url user_id) (py_str (api X) key)).
  assert (Hpost : forall cs, tally is_tenant cs = 0 -> tally is_editor cs = 0 ->
            spends 2 2 1 s {| server := server s2; calls := cs ++ c :: calls s2 |}).
  { intros cs Ht He. destruct Hsp as (L & D & N & M).
    repeat split; simpl; try assumption;
      unfold tenants, editors, tally in *; simpl;
      rewrite List.filter_app, length_app; simpl; lia. }
  destruct (editor_reply X (editors s)) as [| |[v3|]] eqn:Hv3; simpl.
  - exists 2, 2, 1. do 4 (split; [lia|]). apply (Hpost []); reflexivity.
  - exists 2, 2, 1. do 4 (split; [lia|]). apply (Hpost []); reflexivity.
  - destruct (subscript v3 "tokenId") as [e|token] eqn:Htok; simpl.
    + exists 2, 2, 1. do 4 (split; [lia|]).
      apply (Hpost [CEditorTokenRelease]); reflexivity.
    + split; [apply (Hpost [CEditorTokenRelease]); reflexivity|].
      exists v1, v2, v3, url, key.
      split; [exact Hv1|]. split; [exact Hurl|]. split; [exact Hv2|].
      split; [exact Hkey|]. split; [reflexivity|]. split; [exact Htok|].
      split; [reflexivity|]. right. left. reflexivity.
  - exists 2, 2, 1. do 4 (split; [lia|]).
    apply (Hpost [CEditorTokenRelease]); reflexivity.
Qed.

(** X15: [get_design_editor_token] returns only when two tenant-info
    answers in a row and the editor answer were JSON objects with the keys
    it reads; the address it posts to comes from the first tenant-info
    answer and the API key from the second, and the call has cost two
    access tokens.  When it raises, the POST to the editor was sent only if
    both tenant-info requests had been made. *)
Theorem editor_token_needs_two_tenant_fetches X user_id s :
  match get_design_editor_token X user_id s with
  | Done token s' =>
      spends 2 2 1 s s' /\
      exists v1 v2 v3 url key,
        tenant_reply X (tenants s) = Text (Some v1) /\
        subscript v1 "designEditorUrl" = inr url /\
        tenant_reply X (S (tenants s)) = Text (Some v2) /\
        subscript v2 "designEditorApiKey" = inr key /\
        editor_reply X (editors s) = Text (Some v3) /\
        subscript v3 "tokenId" = inr token /\
        hd_error (calls s') = Some CEditorTokenRelease /\
        In (CEditorToken (tokens_url X url user_id) (py_str (api X) key))
           (calls s')
  | Broke _ s' =>
      exists t n m,
        1 <= t <= 2 /\ n <= t /\ m <= 1 /\ (m = 1 -> n = 2) /\
        spends t n m s s'
  end.
Proof. apply editor_token_fetch. Qed.

Lemma do_GET_run X d :
  match do_GET X (fresh_site d) with
  | Done _ s' =>
      exists v3 v4 token url,
        editor_reply X 0 = Text (Some v3) /\
        subscript v3 "tokenId" = inr token /\
        tenant_reply X 2 = Text (Some v4) /\
        subscript v4 "designEditorUrl" = inr url /\
        trace (server s') =
          header_lines ++ repeat EToken 3 ++
          [EWfile (page X your_system_user_id (py_str (api X) token)
                        (py_str (api X) url) your_design_id)] /\
        tenants s' = 3 /\ editors s' = 1 /\ disk (server s') = d
  | Broke _ s' =>
      exists t n m,
        1 <= t <= 3 /\ n <= t /\ m <= 1 /\
        trace (server s') = header_lines ++ repeat EToken t /\
        tenants s' = n /\ editors s' = m /\ disk (server s') = d
  end.
Proof.
  unfold do_GET. do 3 (unfold gbind at 1, on_server at 1, say at 1; cbn [server calls]).
  set (s1 := {| server := _; calls := _ |}).
  assert (Hl1 : log (server s1) = rev header_lines) by reflexivity.
  unfold gbind at 1.
  pose proof (editor_token_fetch X (PyStr your_system_user_id) s1) as H1.
  destruct (get_design_editor_token X (PyStr your_system_user_id) s1)
    as [token s2|e s2].
  2:{ destruct H1 as (t & n & m & Ht & Hn & Hm & _ & (L & D & N & M)).
      exists t, n, m. split; [lia|]. split; [lia|]. split; [lia|].
      split; [|split; [exact N | split; [exact M | exact D]]].
      unfold trace. rewrite L, Hl1, rev_app_distr, rev_involutive.
      rewrite rev_repeat. reflexivity. }
  destruct H1 as ((L2 & D2 & N2 & M2) & v1 & v2 & v3 & u & k & _ & _ & _ & _
                  & Hv3 & Htok & _).
  change (editors s1) with 0 in Hv3. change (tenants s1) with 0 in N2.
  change (editors s1) with 0 in M2.
  unfold gbind at 1.
  pose proof (key_fetch X "designEditorUrl" s2) as H2.
  fold (get_design_editor_url X) in H2.
  destruct (get_design_editor_url X s2) as [url s3|e s3].
  2:{ destruct H2 as (n & Hn & (L3 & D3 & N3 & M3)).
      exists 3, (2 + n), 1. split; [lia|]. split; [lia|]. split; [lia|].
      split; [|split; [lia | split; [lia | rewrite D3, D2; reflexivity]]].
      unfold trace. rewrite L3, L2, Hl1, !rev_app_distr, rev_involutive.
      rewrite !rev_repeat, <- app_assoc. reflexivity. }
  destruct H2 as ((L3 & D3 & N3 & M3) & v4 & Hv4 & Hurl).
  rewrite N2 in Hv4. unfold on_server, say. cbn [server calls].
  exists v3, v4, token, url.
  split; [exact Hv3|]. split; [exact Htok|]. split; [exact Hv4|].
  split; [exact Hurl|]. split; [|split; [|split]].
  - unfold trace. cbn [emit log]. rewrite L3, L2, Hl1. cbn [rev].
    rewrite !rev_app_distr, rev_involutive, !rev_repeat, <- !app_assoc.
    reflexivity.
  - unfold tenants in *. cbn [calls]. lia.
  - unfold editors in *. cbn [calls]. lia.
  - cbn [emit disk]. rewrite D3, D2. reflexivity.
Qed.

(** X16: a page load that succeeds has sent the status line and the headers
    first, then asked for three access tokens (with three tenant-info
    requests and one editor-token request, nothing being kept from one
    helper call to the next), then written the page; the page carries the
    token of the editor answer and the editor address of the third
    tenant-info answer.  No project request is made and the disk is left
    alone. *)
Theorem page_load_asks_three_times X d s' :
  do_GET X (fresh_site d) = Done tt s' ->
  exists v3 v4 token url,
    editor_reply X 0 = Text (Some v3) /\
    subscript v3 "tokenId" = inr token /\
    tenant_reply X 2 = Text (Some v4) /\
    subscript v4 "designEditorUrl" = inr url /\
    trace (server s') =
      header_lines ++ repeat EToken 3 ++
      [EWfile (page X your_system_user_id (py_str (api X) token)
                    (py_str (api X) url) your_design_id)] /\
    tenants s' = 3 /\ editors s' = 1 /\ disk (server s') = d.
Proof.
  intros Hrun. pose proof (do_GET_run X d) as H. rewrite Hrun in H. exact H.
Qed.

Lemma page_load_asks_three_times_witness :
  exists s',
    do_GET front_ok (fresh_site ∅) = Done tt s' /\
    trace (server s') =
      header_lines ++ repeat EToken 3 ++
      [EWfile ("some_user_id_12345|tok|https://editor|Enter your design ID here...")] /\
    tenants s' = 3 /\ editors s' = 1 /\ disk (server s') = ∅.
Proof.
  assert (Hrun : exists s', do_GET front_ok (fresh_site ∅) = Done tt s').
  { vm_compute. eexists. reflexivity. }
  destruct Hrun as (s' & Hrun). exists s'. split; [exact Hrun|].
  destruct (page_load_asks_three_times front_ok ∅ s' Hrun)
    as (v3 & v4 & token & url & Hv3 & Htok & Hv4 & Hurl & Htrace & Hrest).
  injection Hv3 as <-. injection Htok as <-.
  injection Hv4 as <-. injection Hurl as <-.
  split; [exact Htrace | exact Hrest].
Defined.

Lemma response_of_headers t :
  List.filter is_response_line (header_lines ++ repeat EToken t) = header_lines.
Proof.
  rewrite List.filter_app. simpl.
  induction t as [|t IH]; [reflexivity | exact IH].
Qed.

(** X17: [do_GET] sends status 200 and the headers before it makes any
    call: when a token or tenant-info call fails, the exception leaves the
    handler after "200 OK" and the headers have gone out, and no body
    follows. *)
Theorem failed_page_load_has_sent_200 X d e s' :
  do_GET X (fresh_site d) = Broke e s' ->
  response_of (server s') = header_lines /\
  (exists t, 1 <= t <= 3 /\
             trace (server s') = header_lines ++ repeat EToken t) /\
  editors s' <= 1 /\ disk (server s') = d.
Proof.
  intros Hrun. pose proof (do_GET_run X d) as H. rewrite Hrun in H.
  destruct H as (t & n & m & Ht & _ & Hm & Htrace & _ & He & Hd).
  split; [|split; [exists t; split; assumption | split; [lia | exact Hd]]].
  unfold response_of. rewrite Htrace. apply response_of_headers.
Qed.

Lemma failed_page_load_has_sent_200_witness :
  exists e s',
    do_GET front_garbled (fresh_site ∅) = Broke e s' /\
    response_of (server s') = header_lines /\
    disk (server s') = ∅.
Proof.
  assert (Hrun : exists e s', do_GET front_garbled (fresh_site ∅) = Broke e s').
  { vm_compute. do 2 eexists. reflexivity. }
  destruct Hrun as (e & s' & Hrun). exists e, s'. split; [exact Hrun|].
  destruct (failed_page_load_has_sent_200 front_garbled ∅ e s' Hrun)
    as (Hresp & _ & _ & Hd).
  split; [exact Hresp | exact Hd].
Defined.
